(** * ccflare: OAuth code exchange, session store, token manager and
      proxy operations

    A shallow embedding of
      - [AnthropicOAuthProvider.exchangeCode]  (providers/anthropic/oauth.ts),
      - [proxyUnauthenticated], [proxyWithAccount]  (proxy operations),
      - [OAuthRepository]  (the oauth_sessions repository),
    and of the token manager's single-flight refresh as the specification
    describes it.

    Conventions.  JavaScript strings are [string]; the only characters the
    code inspects are ASCII.  JavaScript numbers that hold epoch
    milliseconds, durations and HTTP statuses are integers of [Z] (exact in
    the source as long as they stay in the safe-integer range).  A value
    that may be [undefined] or [null] is an [option].  Code that may throw
    returns an [outcome]; code that calls collaborators also records the
    calls it makes, in order, in a trace. *)

From Stdlib Require Import ZArith List String Ascii Bool Lia DecimalString.
From stdpp Require Import base option gmap strings.
Import ListNotations.

Local Open Scope Z_scope.
Local Open Scope string_scope.

(* ===================================================================== *)
(** ** JavaScript values and control flow                                 *)
(* ===================================================================== *)

(** What a callee of unknown code may throw: an instance of [Error] with
    its [message], or any other value, kept as what [String(v)] shows. *)
Inductive thrown : Type :=
  | ErrorInstance (message : string)
  | OtherValue (shown : string).

Inductive outcome (E A : Type) : Type :=
  | Returned (a : A)
  | Thrown (e : E).
Arguments Returned {E A} a.
Arguments Thrown {E A} e.

(** A computation: the calls and log lines it performed, oldest first, and
    how it ended. *)
Definition run (Ev E A : Type) : Type := (list Ev * outcome E A)%type.

Definition ret {Ev E A} (a : A) : run Ev E A := ([], Returned a).
Definition throw {Ev E A} (e : E) : run Ev E A := ([], Thrown e).
Definition emit {Ev E} (ev : Ev) : run Ev E unit := ([ev], Returned tt).

Definition bind {Ev E A B} (m : run Ev E A) (k : A -> run Ev E B) : run Ev E B :=
  match m with
  | (t, Returned a) => let (t', r) := k a in ((t ++ t')%list, r)
  | (t, Thrown e) => (t, Thrown e)
  end.

(** [try { m } catch (e) { h e }] *)
Definition try_catch {Ev E E' A} (m : run Ev E A) (h : E -> run Ev E' A)
  : run Ev E' A :=
  match m with
  | (t, Returned a) => (t, Returned a)
  | (t, Thrown e) => let (t', r) := h e in ((t ++ t')%list, r)
  end.

(** A call to a collaborator: the call is recorded, then its answer is
    returned or its exception raised. *)
Definition call {Ev E A} (ev : Ev) (answer : outcome E A) : run Ev E A :=
  ([ev], answer).

(** Re-raise under a wider exception type. *)
Definition lift_exn {Ev E E' A} (f : E -> E') (m : run Ev E A) : run Ev E' A :=
  match m with
  | (t, Returned a) => (t, Returned a)
  | (t, Thrown e) => (t, Thrown (f e))
  end.

Definition trace {Ev E A} (m : run Ev E A) : list Ev := fst m.
Definition result {Ev E A} (m : run Ev E A) : outcome E A := snd m.

Notation "'let!' x ':=' m 'in' k" := (bind m (fun x => k))
  (at level 10, x name, m at level 200, k at level 200).

(* ===================================================================== *)
(** ** Strings as JavaScript uses them                                    *)
(* ===================================================================== *)

Module Js.

(** Truthiness of a string that may be [undefined]/[null]: only a
    non-empty string is truthy. *)
Definition nonempty (s : string) : bool := negb (String.eqb s "").

Definition truthy (v : option string) : bool :=
  match v with
  | Some s => nonempty s
  | None => false
  end.

(** [a || b] on such values. *)
Definition or (a b : option string) : option string :=
  if truthy a then a else b.

(** [a || "literal"], whose value is always a string. *)
Definition or_str (a : option string) (b : string) : string :=
  match a with
  | Some s => if nonempty s then s else b
  | None => b
  end.

(** [s.startsWith(p)] *)
Definition startsWith (p s : string) : bool := String.prefix p s.

(** [s.includes(p)] *)
Fixpoint includes (p s : string) : bool :=
  if String.prefix p s then true
  else match s with
       | EmptyString => false
       | String _ s' => includes p s'
       end.

(** [s.split(sep)] for a separator of one character: every occurrence
    separates, and the result always has at least one piece. *)
Fixpoint split (sep : ascii) (s : string) : list string :=
  match s with
  | EmptyString => [EmptyString]
  | String c s' =>
      if Ascii.eqb c sep then EmptyString :: split sep s'
      else match split sep s' with
           | [] => [String c EmptyString]
           | piece :: pieces => String c piece :: pieces
           end
  end.

(** [arr[i]], [undefined] out of range. *)
Definition index {A} (l : list A) (i : nat) : option A := nth_error l i.

(** [s.substring(0, n)] *)
Fixpoint take (n : nat) (s : string) : string :=
  match n, s with
  | S n', String c s' => String c (take n' s')
  | _, _ => EmptyString
  end.

End Js.

Definition hash : ascii := "#"%char.

(* ===================================================================== *)
(** ** providers/anthropic/oauth.ts: the authorization-code exchange      *)
(* ===================================================================== *)

Module OAuth.

Inductive Mode : Type := mode_console | mode_max.

Record OAuthProviderConfig : Type := {
  authorizeUrl : string;
  tokenUrl : string;
  clientId : string;
  scopes : list string;
  redirectUri : string;
  mode : Mode
}.

Record TokenResult : Type := {
  refreshToken : string;
  accessToken : string;
  expiresAt : Z
}.

(** The success payload, at the type [exchangeCode] casts
    [response.json()] to.  The cast is not checked at run time; payloads
    of another shape are outside this model. *)
Record TokenPayload : Type := {
  refresh_token : string;
  access_token : string;
  expires_in : Z
}.

(** A value [JSON.parse] may return.  The declared type of
    [errorDetails] is not checked at run time, so the error body is kept
    as the value it parses to.  A number is kept as what the code can
    observe of it: whether it is truthy (not zero) and its text.  An
    object is kept as its own properties, each name once. *)
#[warnings="-register-all"]
Inductive json_value : Type :=
  | JNull
  | JBool (b : bool)
  | JNumber (nonzero : bool) (shown : string)
  | JString (s : string)
  | JArray (items : list json_value)
  | JObject (properties : list (string * json_value)).

(** Truthiness of a value. *)
Definition truthy (v : json_value) : bool :=
  match v with
  | JNull => false
  | JBool b => b
  | JNumber nonzero _ => nonzero
  | JString s => Js.nonempty s
  | JArray _ | JObject _ => true
  end.


(** [v?.name] for a name that no prototype defines: the property of an
    object, [undefined] on [null], on a primitive, on an array and on an
    object without it. *)
Definition property (name : string) (v : json_value) : option json_value :=
  match v with
  | JObject properties =>
      match find (fun kv => String.eqb (fst kv) name) properties with
      | Some kv => Some (snd kv)
      | None => None
      end
  | _ => None
  end.

(** [errorDetails?.error] and [errorDetails?.error_description] *)
Definition error (errorDetails : json_value) : option json_value :=
  property "error" errorDetails.
Definition error_description (errorDetails : json_value)
  : option json_value :=
  property "error_description" errorDetails.

(** [a || b] where [b] is never [undefined]. *)
Definition or_else (a : option json_value) (b : json_value) : json_value :=
  match a with
  | Some v => if truthy v then v else b
  | None => b
  end.

(** The second argument of [fetch].  [body] is the object handed to
    [JSON.stringify], all of whose values are strings, kept as its
    fields in order. *)
Record RequestInit : Type := {
  method : string;
  headers : list (string * string);
  body : list (string * string)
}.

(** What the code reads of a fetch [Response]. *)
Record Response : Type := {
  status : Z;
  statusText : string;
  text : outcome thrown string;        (* await response.text() *)
  json : outcome thrown TokenPayload   (* await response.json() *)
}.

(** [response.ok]: the status is in the range 200-299. *)
Definition ok (r : Response) : bool :=
  (200 <=? status r)%Z && (status r <=? 299)%Z.

Inductive logval : Type :=
  | LStr (s : string)
  | LNum (z : Z)
  | LBool (b : bool)
  | LJson (v : json_value)
  | LObj (fields : list (string * string)).

Inductive event : Type :=
  | ConsoleLog (label : string) (payload : list (string * logval))
  | ConsoleError (label : string) (payload : list (string * logval))
  | Fetch (url : string) (init : RequestInit).

(** [new OAuthError(message, provider, code)] with the values the
    constructor is handed, or an exception of [fetch] /
    [response.json()] that the function does not catch. *)
Inductive exchange_error : Type :=
  | OAuthError (message : json_value) (provider : string)
      (code : option json_value)
  | Rejected (e : thrown).

Definition getOAuthConfig (m : Mode) : OAuthProviderConfig :=
  let baseUrl := match m with
                 | mode_console => "https://console.anthropic.com"
                 | mode_max => "https://claude.ai"
                 end in
  {| authorizeUrl := baseUrl ++ "/oauth/authorize";
     tokenUrl := "https://console.anthropic.com/v1/oauth/token";
     clientId := "";
     scopes := ["org:create_api_key"; "user:profile"; "user:inference"];
     redirectUri := "https://console.anthropic.com/oauth/code/callback";
     mode := m |}.

(** Lines 51-58: [authCode] and [extractedState]. *)
Definition split_code (code : string) : string * string :=
  if Js.includes "#" code then
    let splits := Js.split hash code in
    (nth 0 splits "", Js.or_str (Js.index splits 1) "")
  else (code, "").

Definition authCode (code : string) : string := fst (split_code code).
Definition extractedState (code : string) : string := snd (split_code code).

(** Line 61: [stateParam || extractedState]. *)
Definition finalState (code : string) (stateParam : option string) : string :=
  Js.or_str stateParam (extractedState code).

(** Lines 73-80. *)
Definition requestBody (code verifier : string) (config : OAuthProviderConfig)
    (stateParam : option string) : list (string * string) :=
  [ ("grant_type", "authorization_code");
    ("code", authCode code);
    ("redirect_uri", redirectUri config);
    ("client_id", clientId config);
    ("code_verifier", verifier);
    ("state", finalState code stateParam) ].

(** Lines 84-92. *)
Definition tokenRequest (code verifier : string) (config : OAuthProviderConfig)
    (stateParam : option string) : RequestInit :=
  {| method := "POST";
     headers := [ ("Content-Type", "application/json");
                  ("Accept", "application/json, text/plain, */*");
                  ("User-Agent", "axios/1.8.4") ];
     body := requestBody code verifier config stateParam |}.

(** Lines 113-117. *)
Definition errorMessage (errorDetails : json_value) (r : Response)
  : json_value :=
  or_else (error_description errorDetails)
    (or_else (error errorDetails)
       (or_else (Some (JString (statusText r)))
          (JString "OAuth token exchange failed"))).

Section WithPlatform.

(** [fetch] and [JSON.parse] belong to the platform. *)
Variable fetch : string -> RequestInit -> outcome thrown Response.
Variable JSON_parse : string -> outcome thrown json_value.

Definition await {A} (p : outcome thrown A) : run event exchange_error A :=
  ([], match p with
       | Returned a => Returned a
       | Thrown e => Thrown (Rejected e)
       end).

(** Lines 95-105: read and parse the error body; a failure of either
    step leaves [errorDetails] at [null] and logs what was read. *)
Definition read_error_details (r : Response)
  : run event exchange_error json_value :=
  match text r with
  | Thrown _ =>
      let! _ := emit (ConsoleError "Raw error response:" [("", LStr "")]) in
      ret JNull
  | Returned t =>
      match JSON_parse t with
      | Returned d => ret d
      | Thrown _ =>
          let! _ := emit (ConsoleError "Raw error response:" [("", LStr t)]) in
          ret JNull
      end
  end.

(** [now] is what [Date.now()] reads on line 131. *)
Definition exchangeCode (code verifier : string)
    (config : OAuthProviderConfig) (stateParam : option string) (now : Z)
  : run event exchange_error TokenResult :=
  let state := finalState code stateParam in
  let! _ := emit (ConsoleLog "OAuth token exchange:"
              [ ("tokenUrl", LStr (tokenUrl config));
                ("codeLength", LNum (Z.of_nat (String.length (authCode code))));
                ("hasState", LBool (Js.nonempty state));
                ("stateLength", LNum (Z.of_nat (String.length state)));
                ("clientId", LStr (clientId config)) ]) in
  let! _ := emit (ConsoleLog "OAuth request body:"
              [("", LObj (requestBody code verifier config stateParam))]) in
  let init := tokenRequest code verifier config stateParam in
  let! _ := emit (Fetch (tokenUrl config) init) in
  let! response := await (fetch (tokenUrl config) init) in
  if negb (ok response) then
    let! errorDetails := read_error_details response in
    let! _ := emit (ConsoleError "OAuth exchange failed:"
                [ ("status", LNum (status response));
                  ("statusText", LStr (statusText response));
                  ("errorDetails", LJson errorDetails) ]) in
    throw (OAuthError (errorMessage errorDetails response) "anthropic"
             (error errorDetails))
  else
    let! payload := await (json response) in
    ret {| refreshToken := refresh_token payload;
           accessToken := access_token payload;
           expiresAt := now + expires_in payload * 1000 |}.

(** The fetches a run issued, in order. *)
Definition fetches (t : list event) : list (string * RequestInit) :=
  omap (fun ev => match ev with
                  | Fetch url init => Some (url, init)
                  | _ => None
                  end) t.

End WithPlatform.

(** [obj[k]] on an object kept as its fields. *)
Definition field (k : string) (obj : list (string * string)) : option string :=
  match find (fun kv => String.eqb (fst kv) k) obj with
  | Some kv => Some (snd kv)
  | None => None
  end.


(** *** The specification's reading of the wire contract and of the
    composite code *)

(** "headers [Content-Type: application/json],
    [Accept: application/json, text/plain, */*]" *)
Definition wire_headers_as_specified : list (string * string) :=
  [ ("Content-Type", "application/json");
    ("Accept", "application/json, text/plain, */*") ].


(** The part of [s] before its first [#] (all of [s] when it has none). *)
Fixpoint before_first_hash (s : string) : string :=
  match s with
  | EmptyString => EmptyString
  | String c s' =>
      if Ascii.eqb c hash then EmptyString
      else String c (before_first_hash s')
  end.

(** Everything after the first [#] of [s] (empty when it has none). *)
Fixpoint after_first_hash (s : string) : string :=
  match s with
  | EmptyString => EmptyString
  | String c s' => if Ascii.eqb c hash then s' else after_first_hash s'
  end.

(** *** [generateAuthUrl] *)

Record PKCEChallenge : Type := {
  verifier : string;
  challenge : string
}.

(** What the code touches of a [URL] object: its query, as the list of
    name-value pairs [url.searchParams] holds; everything before the query
    and the fragment are carried along. *)
Record Url : Type := {
  before_query : string;
  searchParams : list (string * string);
  fragment : string
}.

(** The pairs of [params] whose name is not [name]. *)
Definition without (name : string) (params : list (string * string))
  : list (string * string) :=
  List.filter (fun kv => negb (String.eqb (fst kv) name)) params.

(** [searchParams.set(name, value)]: the first pair named [name] takes the
    value and the other pairs of that name are removed; without such a
    pair, one is appended. *)
Fixpoint searchParams_set (name value : string) (params : list (string * string))
  : list (string * string) :=
  match params with
  | [] => [(name, value)]
  | (k, v) :: rest =>
      if String.eqb k name then (name, value) :: without name rest
      else (k, v) :: searchParams_set name value rest
  end.

(** [searchParams.getAll(name)] *)
Definition getAll (name : string) (params : list (string * string)) : list string :=
  map snd (List.filter (fun kv => String.eqb (fst kv) name) params).

(** [uuid.replace(/-/g, "")] *)
Fixpoint remove_hyphens (s : string) : string :=
  match s with
  | EmptyString => EmptyString
  | String c s' =>
      if Ascii.eqb c "-"%char then remove_hyphens s'
      else String c (remove_hyphens s')
  end.

(** Lines 31-40: the eight calls of [searchParams.set], in their order. *)
Definition authorization_params (config : OAuthProviderConfig)
    (pkce : PKCEChallenge) (state : string) (params : list (string * string))
  : list (string * string) :=
  searchParams_set "state" state
    (searchParams_set "code_challenge_method" "S256"
       (searchParams_set "code_challenge" (challenge pkce)
          (searchParams_set "scope" (String.concat " " (scopes config))
             (searchParams_set "redirect_uri" (redirectUri config)
                (searchParams_set "response_type" "code"
                   (searchParams_set "client_id" (clientId config)
                      (searchParams_set "code" "true" params))))))).

Section WithUrl.

(** [new URL(...)], which throws on a string that is no URL, and
    [url.toString()] belong to the platform. *)
Variable URL_parse : string -> outcome thrown Url.
Variable URL_toString : Url -> string.

(** [uuid] is what [crypto.randomUUID()] draws on line 39.  The result is
    the pair of [url] and [state]. *)
Definition generateAuthUrl (config : OAuthProviderConfig) (pkce : PKCEChallenge)
    (uuid : string) : outcome thrown (string * string) :=
  match URL_parse (authorizeUrl config) with
  | Thrown e => Thrown e
  | Returned url =>
      let state := remove_hyphens uuid in
      Returned
        (URL_toString
           {| before_query := before_query url;
              searchParams :=
                authorization_params config pkce state (searchParams url);
              fragment := fragment url |},
         state)
  end.

End WithUrl.

End OAuth.

(* ===================================================================== *)
(** ** The oauth_sessions repository                                      *)
(* ===================================================================== *)

Module Sessions.

Record OAuthSession : Type := {
  accountName : string;
  verifier : string;
  state : option string;
  mode : OAuth.Mode;
  tier : Z
}.

(** A row of [oauth_sessions], without its key. *)
Record Row : Type := {
  account_name : string;
  row_verifier : string;
  row_mode : OAuth.Mode;
  row_tier : Z;
  created_at : Z;
  expires_at : Z;
  row_state : option string
}.

(** Modelled from the spec: the table behind [BaseRepository.run] and
    [BaseRepository.get], neither of which is among the sources.  The
    session id is the key of the table ("id must be caller-supplied and
    unique (collision is a caller error, not silently overwritten)"), so
    the table is a finite map from ids to rows and an INSERT under an id
    already present fails. *)
Inductive sql_error : Type := UniqueConstraintFailed (id : string).

(** [ttlMinutes = 10] when the argument is left out. *)
Definition ttl_or_default (ttlMinutes : option Z) : Z :=
  match ttlMinutes with
  | Some m => m
  | None => 10
  end.

(** [now] is what [Date.now()] reads on entry. *)
Definition createSession (table : gmap string Row) (sessionId account verif : string)
    (m : OAuth.Mode) (t : Z) (ttlMinutes : option Z) (st : option string)
    (now : Z) : outcome sql_error (gmap string Row) :=
  let expiresAt := now + ttl_or_default ttlMinutes * 60 * 1000 in
  let row := {| account_name := account;
                row_verifier := verif;
                row_mode := m;
                row_tier := t;
                created_at := now;
                expires_at := expiresAt;
                row_state := Js.or st None |} in
  match table !! sessionId with
  | Some _ => Thrown (UniqueConstraintFailed sessionId)
  | None => Returned (<[sessionId := row]> table)
  end.

(** [SELECT ... WHERE id = ? AND expires_at > ?] with [Date.now()] as
    the second argument. *)
Definition getSession (table : gmap string Row) (sessionId : string) (now : Z)
  : option OAuthSession :=
  match table !! sessionId with
  | Some row =>
      if (expires_at row >? now)%Z then
        Some {| accountName := account_name row;
                verifier := row_verifier row;
                state := row_state row;
                mode := row_mode row;
                tier := row_tier row |}
      else None
  | None => None
  end.

Definition deleteSession (table : gmap string Row) (sessionId : string)
  : gmap string Row :=
  delete sessionId table.

(** [DELETE ... WHERE expires_at <= ?]: the table left, and the number
    of rows removed. *)
Definition cleanupExpiredSessions (table : gmap string Row) (now : Z)
  : gmap string Row * nat :=
  (filter (fun kv => (now < expires_at kv.2)%Z) table,
   size (filter (fun kv => (expires_at kv.2 <= now)%Z) table)).

(** The session a row is read as. *)
Definition session_of_row (row : Row) : OAuthSession :=
  {| accountName := account_name row;
     verifier := row_verifier row;
     state := row_state row;
     mode := row_mode row;
     tier := row_tier row |}.

End Sessions.

(* ===================================================================== *)
(** ** Proxy operations: [proxyUnauthenticated] and [proxyWithAccount]    *)
(* ===================================================================== *)

Module Proxy.

(** A [Headers] object: the class keeps names in lower case, and [get]
    joins the values stored under a name with a comma and a space. *)
Definition Headers : Type := list (string * string).

Definition headers_get (h : Headers) (name : string) : option string :=
  match map snd (filter (fun kv => String.eqb (fst kv) name) h) with
  | [] => None
  | values => Some (String.concat ", " values)
  end.

Record Request : Type := {
  req_method : string;
  req_headers : Headers;
  req_has_body : bool            (* !!req.body *)
}.

Record URL : Type := {
  pathname : string;
  search : string
}.

(** The fields of [Account] these functions read. *)
Record Account : Type := {
  name : string;
  api_key : option string;
  refresh_token : option string
}.

Record RequestMeta : Type := {
  id : string;
  timestamp : Z;
  agentUsed : option string
}.

(** What the code reads of an upstream [Response]. *)
Record Response : Type := {
  status : Z;
  statusText : string;
  headers : Headers;
  clone_text : outcome thrown string   (* await response.clone().text() *)
}.

(** [createBodyStream]: the body a call of it streams, if any. *)
Definition BodyStreamFactory : Type := unit -> option string.

(** The object handed to [forwardToClient]. *)
Record ForwardRecord : Type := {
  requestId : string;
  method : string;
  path : string;
  account : option Account;
  requestHeaders : Headers;
  requestBody : option string;
  response : Response;
  fwd_timestamp : Z;
  retryAttempt : Z;
  failoverAttempts : Z;
  fwd_agentUsed : option string
}.

(** [ctx.provider] *)
Record Provider : Type := {
  provider_name : string;
  buildUrl : string -> string -> outcome thrown string;
  prepareHeaders :
    Headers -> option string -> option string -> outcome thrown Headers
}.

Record ProxyContext : Type := {
  provider : Provider
}.

(** The fields of [ERROR_MESSAGES] (proxy-types) that are used. *)
Record ErrorMessages : Type := {
  NO_ACCOUNTS : string;
  UNAUTHENTICATED_FAILED : string
}.

Inductive level : Type := debug | info | warn.

(** Calls to collaborators and log lines.  Modelled from the spec: the
    logger ([Logger], [logError], [handleProxyError]) is not among the
    sources; a failed attempt is "logged", so a call to it is recorded
    and returns. *)
Inductive event : Type :=
  | Log (l : level) (message : string)
  | LogHeaders (h : Headers)
  | GetValidAccessToken (a : Account)
  | PrepareHeaders (h : Headers) (accessToken apiKey : option string)
  | BuildUrl (pathname search : string)
  | MakeProxyRequest (targetUrl method : string) (h : Headers) (hasBody : bool)
  | ProcessProxyResponse (r : Response) (a : Account)
  | ForwardToClient (record : ForwardRecord)
  | HandleProxyError (err : thrown) (a : Account)
  | LogError (err : thrown).

(** [new ProviderError(message, provider, 502, {originalError})], or an
    exception the function does not catch. *)
Inductive proxy_error : Type :=
  | ProviderError (message provider : string) (status : Z)
      (originalError : string)
  | Uncaught (e : thrown).

(** What the body of an async function hands to [return]: [null], or the
    promise a callee returned, which the caller's promise then follows. *)
Inductive returned : Type :=
  | Null
  | Promise (settled : outcome thrown Response).

Definition show_Z (z : Z) : string :=
  DecimalString.NilEmpty.string_of_int (Z.to_int z).

Definition show_flag (b : option bool) : string :=
  match b with
  | Some true => "true"
  | Some false => "false"
  | None => "undefined"
  end.

(** [error instanceof Error ? error.message : String(error)] *)
Definition error_detail (e : thrown) : string :=
  match e with
  | ErrorInstance m => m
  | OtherValue s => s
  end.

(** Line 251: [!account.api_key && account.refresh_token], as a
    condition. *)
Definition isMaxAccount (a : Account) : bool :=
  negb (Js.truthy (api_key a)) && Js.truthy (refresh_token a).

(** Lines 252-254; [undefined] when the first test fails and there is no
    user-agent header. *)
Definition isClaudeCodeRequest (req : Request) : option bool :=
  match headers_get (req_headers req) "x-app" with
  | Some "cli" => Some true
  | _ => match headers_get (req_headers req) "user-agent" with
         | Some ua => Some (Js.includes "claude-cli" ua)
         | None => None
         end
  end.

Definition is_true (b : option bool) : bool :=
  match b with
  | Some true => true
  | _ => false
  end.

(** The condition of lines 263-267. *)
Definition special_case (req : Request) (a : Account) (url : URL) : bool :=
  is_true (isClaudeCodeRequest req) && isMaxAccount a
    && Js.startsWith "/v1/" (pathname url).

(** The object literal both functions hand to [forwardToClient]
    (lines 197-209 and 370-382). *)
Definition forward_record (acct : option Account) (failovers : Z)
    (req : Request) (url : URL) (requestMeta : RequestMeta)
    (requestBodyBuffer : option string) (resp : Response) : ForwardRecord :=
  {| requestId := id requestMeta;
     method := req_method req;
     path := pathname url;
     account := acct;
     requestHeaders := req_headers req;
     requestBody := requestBodyBuffer;
     response := resp;
     fwd_timestamp := timestamp requestMeta;
     retryAttempt := 0;
     failoverAttempts := failovers;
     fwd_agentUsed := agentUsed requestMeta |}.

Definition is_log (ev : event) : bool :=
  match ev with
  | Log _ _ | LogHeaders _ => true
  | _ => false
  end.

(** The calls to collaborators in a trace, log lines left out. *)
Definition calls (t : list event) : list event :=
  List.filter (fun ev => negb (is_log ev)) t.

(** A run that ends by returning [v], the last call it made being [ev]. *)
Definition ends_with {E} (m : run event E (option Response))
    (v : option Response) (ev : event) : Prop :=
  result m = Returned v /\ last (calls (trace m)) = Some ev.

(** A computation that only logs. *)
Definition silent {E} (m : run event E unit) : Prop :=
  result m = Returned tt /\ calls (trace m) = [].

Section WithCollaborators.

(** The functions imported from sibling modules, the error texts and
    the environment toggle. *)
Variable ERROR_MESSAGES : ErrorMessages.
Variable CF_DEBUG_TRAFFIC : option string.
Variable makeProxyRequest :
  string -> string -> Headers -> BodyStreamFactory -> bool ->
  outcome thrown Response.
Variable getValidAccessToken : Account -> ProxyContext -> outcome thrown string.
Variable processProxyResponse :
  Response -> Account -> ProxyContext -> outcome thrown bool.
(** [forwardToClient] may throw while it is called, or return a promise
    (or a plain response) that settles later. *)
Variable forwardToClient :
  ForwardRecord -> ProxyContext -> outcome thrown (outcome thrown Response).

Definition log {E} (l : level) (message : string) : run event E unit :=
  emit (Log l message).

Definition debug_traffic : bool :=
  match CF_DEBUG_TRAFFIC with
  | Some "true" => true
  | _ => false
  end.

Definition when {E} (b : bool) (m : run event E unit) : run event E unit :=
  if b then m else ret tt.

(** The value of an async function whose body ended with [return v]. *)
Definition settle {E} (wrap : thrown -> E) (v : returned)
  : run event E (option Response) :=
  match v with
  | Null => ret None
  | Promise (Returned r) => ret (Some r)
  | Promise (Thrown e) => throw (wrap e)
  end.

(** Lines 174-211, the [try] block of [proxyUnauthenticated]. *)
Definition unauthenticated_attempt (req : Request) (url : URL)
    (requestMeta : RequestMeta) (requestBodyBuffer : option string)
    (createBodyStream : BodyStreamFactory) (ctx : ProxyContext)
    (targetUrl : string) (hdrs : Headers) : run event thrown returned :=
  let! _ := when debug_traffic
              (let! _ := log info "🔍 REQUEST DETAILS (no account):" in
               let! _ := log info ("URL: " ++ targetUrl) in
               let! _ := log info ("Method: " ++ req_method req) in
               emit (LogHeaders hdrs)) in
  let! resp := call (MakeProxyRequest targetUrl (req_method req) hdrs
                       (req_has_body req))
                 (makeProxyRequest targetUrl (req_method req) hdrs
                    createBodyStream (req_has_body req)) in
  let! _ := when debug_traffic
              (let! _ := log info "🔍 RESPONSE DETAILS (no account):" in
               let! _ := log info ("Status: " ++ show_Z (status resp) ++ " "
                                     ++ statusText resp) in
               emit (LogHeaders (headers resp))) in
  let record := forward_record None 0 req url requestMeta
                  requestBodyBuffer resp in
  let! p := call (ForwardToClient record) (forwardToClient record ctx) in
  ret (Promise p).

Definition proxyUnauthenticated (req : Request) (url : URL)
    (requestMeta : RequestMeta) (requestBodyBuffer : option string)
    (createBodyStream : BodyStreamFactory) (ctx : ProxyContext)
  : run event proxy_error (option Response) :=
  let! _ := log warn (NO_ACCOUNTS ERROR_MESSAGES) in
  let! targetUrl := lift_exn Uncaught
                      (call (BuildUrl (pathname url) (search url))
                         (buildUrl (provider ctx) (pathname url) (search url))) in
  let! hdrs := lift_exn Uncaught
                 (call (PrepareHeaders (req_headers req) None None)
                    (prepareHeaders (provider ctx) (req_headers req) None None)) in
  let! v := try_catch
              (unauthenticated_attempt req url requestMeta requestBodyBuffer
                 createBodyStream ctx targetUrl hdrs)
              (fun error =>
                 let! _ := emit (LogError error) in
                 throw (ProviderError (UNAUTHENTICATED_FAILED ERROR_MESSAGES)
                          (provider_name (provider ctx)) 502
                          (error_detail error))) in
  settle Uncaught v.

(** Lines 263-299: the branch taken for a CLI request with an
    OAuth-only account on a [/v1/] path.  It logs; the error object it
    builds ([_errorResponse]) is never used. *)
Definition special_case_notice : run event thrown unit :=
  let! _ := log warn
    "Claude Code detected with Max account on standard API endpoint" in
  let! _ := log info
    "Max accounts use OAuth tokens which are not supported by standard API endpoints" in
  let! _ := log info
    "Unfortunately, Claude Code's internal OAuth endpoints are not publicly documented" in
  let! _ := log info "Options:" in
  let! _ := log info
    "1. Add a console mode account: bun run ccflare --add-account api-account --mode console" in
  let! _ := log info
    "2. Use Claude Code directly without proxy: unset ANTHROPIC_BASE_URL" in
  log info "Forwarding request anyway to capture the actual API response...".

(** Lines 350-360: for a 401 or 403 with a JSON content type the body
    of a clone is logged; a failure to read it is ignored. *)
Definition log_auth_error (resp : Response) : run event thrown unit :=
  if (status resp =? 401)%Z || (status resp =? 403)%Z then
    match headers_get (headers resp) "content-type" with
    | Some errorHeader =>
        if Js.includes "json" errorHeader then
          match clone_text resp with
          | Returned errorBody =>
              log warn ("Authentication error response: " ++ errorBody)
          | Thrown _ => ret tt
          end
        else ret tt
    | None => ret tt
    end
  else ret tt.

(** Lines 248-384, the [try] block of [proxyWithAccount]. *)
Definition account_attempt (req : Request) (url : URL) (acct : Account)
    (requestMeta : RequestMeta) (requestBodyBuffer : option string)
    (createBodyStream : BodyStreamFactory) (failovers : Z)
    (ctx : ProxyContext) : run event thrown returned :=
  let! _ := log info ("Attempting request with account: " ++ name acct) in
  let isMax := isMaxAccount acct in
  let isClaude := isClaudeCodeRequest req in
  let! _ := log debug ("Account type: " ++
              (if isMax then "Max (OAuth)" else "Console (API Key)")) in
  let! _ := log debug ("Claude Code request: " ++ show_flag isClaude) in
  let! _ := log debug ("Request path: " ++ pathname url) in
  let! _ := when (special_case req acct url) special_case_notice in
  let! accessToken := call (GetValidAccessToken acct)
                        (getValidAccessToken acct ctx) in
  let apiKey := Js.or (api_key acct) None in
  let! _ := when (is_true isClaude && isMax)
              (let! _ := log info
                 "Using Max account OAuth token for Claude Code request" in
               let! _ := log info ("Access token: " ++
                 (if Js.nonempty accessToken
                  then "Bearer " ++ Js.take 10 accessToken ++ "..."
                  else "empty")) in
               log info ("API key: " ++
                 (if Js.truthy apiKey then "present" else "none"))) in
  let! hdrs := call (PrepareHeaders (req_headers req) (Some accessToken) apiKey)
                 (prepareHeaders (provider ctx) (req_headers req)
                    (Some accessToken) apiKey) in
  let! targetUrl := call (BuildUrl (pathname url) (search url))
                      (buildUrl (provider ctx) (pathname url) (search url)) in
  let! _ := when debug_traffic
              (let! _ := log info "🔍 REQUEST DETAILS (with account):" in
               let! _ := log info ("URL: " ++ targetUrl) in
               let! _ := log info ("Method: " ++ req_method req) in
               let! _ := log info ("Account: " ++ name acct ++ " (" ++
                 (if Js.truthy (api_key acct) then "API Key" else "OAuth")
                 ++ ")") in
               emit (LogHeaders hdrs)) in
  let! resp := call (MakeProxyRequest targetUrl (req_method req) hdrs
                       (req_has_body req))
                 (makeProxyRequest targetUrl (req_method req) hdrs
                    createBodyStream (req_has_body req)) in
  let! _ := when debug_traffic
              (let! _ := log info "🔍 RESPONSE DETAILS:" in
               let! _ := log info ("Status: " ++ show_Z (status resp) ++ " "
                                     ++ statusText resp) in
               emit (LogHeaders (headers resp))) in
  let! _ := log info ("Response status: " ++ show_Z (status resp)
                        ++ " for account: " ++ name acct) in
  let! _ := log_auth_error resp in
  let! isRateLimited := call (ProcessProxyResponse resp acct)
                          (processProxyResponse resp acct ctx) in
  if isRateLimited then ret Null
  else
    let record := forward_record (Some acct) failovers req url requestMeta
                    requestBodyBuffer resp in
    let! p := call (ForwardToClient record) (forwardToClient record ctx) in
    ret (Promise p).

Definition proxyWithAccount (req : Request) (url : URL) (acct : Account)
    (requestMeta : RequestMeta) (requestBodyBuffer : option string)
    (createBodyStream : BodyStreamFactory) (failovers : Z)
    (ctx : ProxyContext) : run event thrown (option Response) :=
  let! v := try_catch
              (account_attempt req url acct requestMeta requestBodyBuffer
                 createBodyStream failovers ctx)
              (fun err =>
                 let! _ := emit (HandleProxyError err acct) in
                 ret Null) in
  settle (fun e => e) v.

(** What the upstream answered in an attempt with an account: the
    calls of lines 302-338 in their order, logging left out. *)
Definition upstream_send (req : Request) (url : URL) (acct : Account)
    (createBodyStream : BodyStreamFactory) (ctx : ProxyContext)
  : outcome thrown Response :=
  match getValidAccessToken acct ctx with
  | Thrown e => Thrown e
  | Returned accessToken =>
      match prepareHeaders (provider ctx) (req_headers req)
              (Some accessToken) (Js.or (api_key acct) None) with
      | Thrown e => Thrown e
      | Returned hdrs =>
          match buildUrl (provider ctx) (pathname url) (search url) with
          | Thrown e => Thrown e
          | Returned targetUrl =>
              makeProxyRequest targetUrl (req_method req) hdrs
                createBodyStream (req_has_body req)
          end
      end
  end.

(** The upstream requests a run sent, in order. *)
Definition upstream_attempts (t : list event)
  : list (string * string * Headers * bool) :=
  omap (fun ev => match ev with
                  | MakeProxyRequest u m h b => Some (u, m, h, b)
                  | _ => None
                  end) t.

End WithCollaborators.

End Proxy.

(* ===================================================================== *)
(** ** The token manager's single-flight refresh                          *)
(* ===================================================================== *)

Module TokenManager.

(** The credential fields of an account that the token manager reads
    and writes. *)
Record Account : Type := {
  refreshToken : option string;
  accessToken : option string;
  accessTokenExpiresAt : Z
}.

(** What a caller of [getValidAccessToken] is handed: a token (empty for
    an account without refresh token) or the failure of the refresh. *)
Definition answer : Type := outcome thrown string.

(** Modelled from the spec: [getValidAccessToken] (token-manager) is not
    among the sources.  The state is the account store, the "per-key
    in-flight-operation map" whose handle for an account lists the
    callers attached to it, the refresh requests sent upstream so far
    (account and refresh token, oldest first) and the answers handed to
    callers so far (caller, account, answer; oldest first). *)
Record State : Type := {
  accounts : gmap string Account;
  inflight : gmap string (list nat);
  requests : list (string * string);
  delivered : list (nat * string * answer)
}.

(** Every request runs on one event loop; what interleaves are these
    steps: a caller invoking [getValidAccessToken] for an account at
    some time, and the upstream answering the refresh in flight for an
    account. *)
Inductive step : Type :=
  | Call (caller : nat) (account : string) (now : Z)
  | RefreshSettles (account : string) (r : outcome thrown OAuth.TokenResult).

Section WithMargin.

Variable safetyMargin : Z.

(** Modelled from the spec: "If the cached access token exists and
    now < expiresAt - safetyMargin, returns it unchanged." *)
Definition cached (acc : Account) (now : Z) : option string :=
  match accessToken acc with
  | Some t =>
      if (now <? accessTokenExpiresAt acc - safetyMargin)%Z then Some t
      else None
  | None => None
  end.

Definition deliver (st : State) (c : nat) (a : string) (r : answer) : State :=
  {| accounts := accounts st;
     inflight := inflight st;
     requests := requests st;
     delivered := (delivered st ++ [(c, a, r)])%list |}.

(** Modelled from the spec: [getValidAccessToken] up to the point where
    it returns or suspends.  No refresh token: empty.  A valid cached
    token: that token.  Otherwise, "first caller installs a shared
    future/promise-like handle, concurrent callers attach to it". *)
Definition getValidAccessToken (st : State) (c : nat) (a : string) (now : Z)
  : State :=
  match accounts st !! a with
  | None => st
  | Some acc =>
      match refreshToken acc with
      | None => deliver st c a (Returned "")
      | Some rt =>
          match cached acc now with
          | Some t => deliver st c a (Returned t)
          | None =>
              match inflight st !! a with
              | Some waiters =>
                  {| accounts := accounts st;
                     inflight := <[a := (waiters ++ [c])%list]> (inflight st);
                     requests := requests st;
                     delivered := delivered st |}
              | None =>
                  {| accounts := accounts st;
                     inflight := <[a := [c]]> (inflight st);
                     requests := (requests st ++ [(a, rt)])%list;
                     delivered := delivered st |}
              end
          end
      end
  end.

(** Modelled from the spec: the refresh in flight for [a] settles.  On
    success the manager "persists the new access/refresh token and
    expiry onto the account, and returns the new access token"; on
    failure it "surfaces the failure to the caller" and "the account's
    cached token is left unchanged"; either way "the handle is cleared
    on completion". *)
Definition settle (st : State) (a : string)
    (r : outcome thrown OAuth.TokenResult) : State :=
  match inflight st !! a with
  | None => st
  | Some waiters =>
      match r with
      | Returned tr =>
          {| accounts :=
               <[a := {| refreshToken := Some (OAuth.refreshToken tr);
                         accessToken := Some (OAuth.accessToken tr);
                         accessTokenExpiresAt := OAuth.expiresAt tr |}]>
                 (accounts st);
             inflight := delete a (inflight st);
             requests := requests st;
             delivered :=
               (delivered st ++
                map (fun c => (c, a, Returned (OAuth.accessToken tr))) waiters)%list |}
      | Thrown e =>
          {| accounts := accounts st;
             inflight := delete a (inflight st);
             requests := requests st;
             delivered :=
               (delivered st ++ map (fun c => (c, a, Thrown e)) waiters)%list |}
      end
  end.

Definition exec (st : State) (s : step) : State :=
  match s with
  | Call c a now => getValidAccessToken st c a now
  | RefreshSettles a r => settle st a r
  end.

Definition exec_all (st : State) (schedule : list step) : State :=
  fold_left exec schedule st.

End WithMargin.

Definition step_account (s : step) : string :=
  match s with
  | Call _ a _ => a
  | RefreshSettles a _ => a
  end.

(** The callers that invoke [getValidAccessToken] for [a] in a
    schedule, in order. *)
Definition callers_of (a : string) (schedule : list step) : list nat :=
  omap (fun s => match s with
                 | Call c b _ => if String.eqb a b then Some c else None
                 | RefreshSettles _ _ => None
                 end) schedule.

(** The refresh requests sent for [a]. *)
Definition requests_for (a : string) (st : State) : list (string * string) :=
  List.filter (fun q => String.eqb a (fst q)) (requests st).

(** The answers handed out for [a]. *)
Definition delivered_for (a : string) (st : State) : list (nat * answer) :=
  omap (fun d => match d with
                 | (c, b, r) => if String.eqb a b then Some (c, r) else None
                 end) (delivered st).

(** In a schedule of concurrent calls for [a], no step for [a] is the
    refresh settling, and every call for [a] finds the token expired. *)
Definition concurrent_calls (safetyMargin : Z) (a : string) (acc : Account)
    (schedule : list step) : Prop :=
  Forall (fun s => match s with
                   | Call _ b now => b = a -> cached safetyMargin acc now = None
                   | RefreshSettles b _ => b <> a
                   end) schedule.

(** What holds of a state reached from [st0] by some of the concurrent
    calls for [a], whose account is [acc] with refresh token [rt]: [cs]
    are the callers so far. *)
Record in_flight (a : string) (acc : Account) (rt : string) (st0 : State)
    (cs : list nat) (st : State) : Prop := {
  account_kept : accounts st !! a = Some acc;
  handle_holds : inflight st !! a = match cs with [] => None | _ => Some cs end;
  one_request :
    requests_for a st =
      (requests_for a st0 ++ match cs with [] => [] | _ => [(a, rt)] end)%list;
  none_answered : delivered_for a st = delivered_for a st0
}.

End TokenManager.

(* ===================================================================== *)
(** ** Test doubles used by the closed examples                           *)
(* ===================================================================== *)

Module Double.

Definition config : OAuth.OAuthProviderConfig :=
  OAuth.getOAuthConfig OAuth.mode_console.

(** A token endpoint that answers every request with [r]. *)
Definition fetch_answering (r : OAuth.Response)
  : string -> OAuth.RequestInit -> outcome thrown OAuth.Response :=
  fun _ _ => Returned r.

(** A [JSON.parse] that rejects every text. *)
Definition parse_nothing : string -> outcome thrown OAuth.json_value :=
  fun _ => Thrown (ErrorInstance "Unexpected token").



(** A stub token endpoint echoing a fixed payload. *)
Definition token_response : OAuth.Response :=
  {| OAuth.status := 200;
     OAuth.statusText := "OK";
     OAuth.text := Thrown (ErrorInstance "body already used");
     OAuth.json := Returned {| OAuth.refresh_token := "R";
                               OAuth.access_token := "T";
                               OAuth.expires_in := 3600 |} |}.


(** *** Doubles for the proxy operations *)

Definition provider : Proxy.Provider :=
  {| Proxy.provider_name := "anthropic";
     Proxy.buildUrl := fun path query =>
       Returned ("https://api.anthropic.com" ++ path ++ query);
     Proxy.prepareHeaders := fun h accessToken apiKey =>
       Returned (match accessToken, apiKey with
                 | Some t, _ => ("authorization", "Bearer " ++ t) :: h
                 | None, Some k => ("x-api-key", k) :: h
                 | None, None => h
                 end) |}.

Definition ctx : Proxy.ProxyContext := {| Proxy.provider := provider |}.

Definition messages : Proxy.ErrorMessages :=
  {| Proxy.NO_ACCOUNTS := "No active accounts available";
     Proxy.UNAUTHENTICATED_FAILED := "Failed to forward unauthenticated request" |}.

(** A request of the first-party CLI for a path of the standard API. *)
Definition cli_request : Proxy.Request :=
  {| Proxy.req_method := "POST";
     Proxy.req_headers := [("x-app", "cli"); ("content-type", "application/json")];
     Proxy.req_has_body := true |}.

Definition messages_url : Proxy.URL :=
  {| Proxy.pathname := "/v1/messages"; Proxy.search := "" |}.

(** An OAuth-only account. *)
Definition max_account : Proxy.Account :=
  {| Proxy.name := "max-1";
     Proxy.api_key := None;
     Proxy.refresh_token := Some "refresh-1" |}.

Definition meta : Proxy.RequestMeta :=
  {| Proxy.id := "req-1"; Proxy.timestamp := 1700000000000;
     Proxy.agentUsed := None |}.

Definition no_body : Proxy.BodyStreamFactory := fun _ => None.

(** An upstream that rejects the credentials with a 401. *)
Definition unauthorized : Proxy.Response :=
  {| Proxy.status := 401;
     Proxy.statusText := "Unauthorized";
     Proxy.headers := [("content-type", "application/json")];
     Proxy.clone_text := Returned "{ }" |}.

(** An upstream that answers 429. *)
Definition too_many_requests : Proxy.Response :=
  {| Proxy.status := 429;
     Proxy.statusText := "Too Many Requests";
     Proxy.headers := [("retry-after", "60")];
     Proxy.clone_text := Returned "" |}.

Definition upstream_answering (r : Proxy.Response)
  : string -> string -> Proxy.Headers -> Proxy.BodyStreamFactory -> bool ->
    outcome thrown Proxy.Response :=
  fun _ _ _ _ _ => Returned r.

Definition upstream_unreachable
  : string -> string -> Proxy.Headers -> Proxy.BodyStreamFactory -> bool ->
    outcome thrown Proxy.Response :=
  fun _ _ _ _ _ => Thrown (ErrorInstance "ECONNREFUSED").

Definition token_of_account
  : Proxy.Account -> Proxy.ProxyContext -> outcome thrown string :=
  fun _ _ => Returned "access-1".

(** A response inspector that reads status 429 as rate-limited. *)
Definition rate_limited_on_429
  : Proxy.Response -> Proxy.Account -> Proxy.ProxyContext -> outcome thrown bool :=
  fun r _ _ => Returned (Proxy.status r =? 429)%Z.

(** A forwarding collaborator that hands the upstream response on. *)
Definition forward_as_is
  : Proxy.ForwardRecord -> Proxy.ProxyContext ->
    outcome thrown (outcome thrown Proxy.Response) :=
  fun record _ => Returned (Returned (Proxy.response record)).

(** A forwarding collaborator whose promise rejects. *)
Definition forward_rejecting
  : Proxy.ForwardRecord -> Proxy.ProxyContext ->
    outcome thrown (outcome thrown Proxy.Response) :=
  fun _ _ => Returned (Thrown (ErrorInstance "client went away")).

(** A provider whose header construction throws. *)
Definition ctx_without_headers : Proxy.ProxyContext :=
  {| Proxy.provider :=
       {| Proxy.provider_name := "anthropic";
          Proxy.buildUrl := Proxy.buildUrl provider;
          Proxy.prepareHeaders := fun _ _ _ =>
            Thrown (ErrorInstance "Invalid header value") |} |}.

(** *** Doubles for the authorization URL and the session store *)

(** A [new URL] that reads every string as a URL without query. *)
Definition url_without_query : string -> outcome thrown OAuth.Url :=
  fun s => Returned {| OAuth.before_query := s;
                       OAuth.searchParams := [];
                       OAuth.fragment := "" |}.

Definition url_text (u : OAuth.Url) : string :=
  OAuth.before_query u ++ "?" ++
  String.concat "&" (map (fun kv => fst kv ++ "=" ++ snd kv) (OAuth.searchParams u)).

Definition pkce : OAuth.PKCEChallenge :=
  {| OAuth.verifier := "secret-verifier"; OAuth.challenge := "digest" |}.

(** A table that holds one session, created at time 1000 for ten
    minutes. *)
Definition one_session : gmap string Sessions.Row :=
  <["s1" := {| Sessions.account_name := "alice";
               Sessions.row_verifier := "verifier";
               Sessions.row_mode := OAuth.mode_max;
               Sessions.row_tier := 1;
               Sessions.created_at := 1000;
               Sessions.expires_at := 601000;
               Sessions.row_state := Some "st" |}]> ∅.

(** A token manager whose refresh fails. *)
Definition token_failing
  : Proxy.Account -> Proxy.ProxyContext -> outcome thrown string :=
  fun _ _ => Thrown (ErrorInstance "refresh failed").

(** *** Doubles for the token manager *)

(** An OAuth account whose cached token expired at time 1000. *)
Definition expired : TokenManager.Account :=
  {| TokenManager.refreshToken := Some "refresh-1";
     TokenManager.accessToken := Some "stale";
     TokenManager.accessTokenExpiresAt := 1000 |}.

Definition store : TokenManager.State :=
  {| TokenManager.accounts := <["alice" := expired]> (<["bob" := expired]> ∅);
     TokenManager.inflight := ∅;
     TokenManager.requests := [];
     TokenManager.delivered := [] |}.

(** Three callers for alice and one for bob, interleaved. *)
Definition schedule : list TokenManager.step :=
  [ TokenManager.Call 1 "alice" 2000;
    TokenManager.Call 2 "bob" 2000;
    TokenManager.Call 3 "alice" 2001;
    TokenManager.Call 4 "alice" 2005 ].

Definition refreshed : OAuth.TokenResult :=
  {| OAuth.refreshToken := "refresh-2";
     OAuth.accessToken := "fresh";
     OAuth.expiresAt := 3602000 |}.

End Double.

(* ===================================================================== *)
(** ** Facts about the code exchange                                      *)
(* ===================================================================== *)

Example split_twice : Js.split hash "a#b#c" = ["a"; "b"; "c"].
Proof. reflexivity. Qed.

Example split_trailing : Js.split hash "a#" = ["a"; ""].
Proof. reflexivity. Qed.

Example split_empty : Js.split hash "" = [""].
Proof. reflexivity. Qed.

Example split_code_composite :
  OAuth.split_code "abc123#stateXYZ" = ("abc123", "stateXYZ").
Proof. reflexivity. Qed.

Example split_code_plain : OAuth.split_code "abc123" = ("abc123", "").
Proof. reflexivity. Qed.

Example request_of_composite_code :
  OAuth.requestBody "abc123#stateXYZ" "v" Double.config None
  = [ ("grant_type", "authorization_code");
      ("code", "abc123");
      ("redirect_uri", "https://console.anthropic.com/oauth/code/callback");
      ("client_id", "");
      ("code_verifier", "v");
      ("state", "stateXYZ") ].
Proof. reflexivity. Qed.

Example explicit_state_wins :
  OAuth.finalState "abc123#stateXYZ" (Some "explicit") = "explicit".
Proof. reflexivity. Qed.

Example cli_is_recognised :
  Proxy.isClaudeCodeRequest
    {| Proxy.req_method := "POST";
       Proxy.req_headers := [("user-agent", "claude-cli/1.0.0 (external)")];
       Proxy.req_has_body := true |} = Some true.
Proof. reflexivity. Qed.

Lemma prefix_hash (c : ascii) (s : string) :
  String.prefix "#" (String c s) = Ascii.eqb c hash.
Proof.
  cbn [String.prefix]. destruct (ascii_dec "#" c) as [<-|Hne].
  - destruct s; reflexivity.
  - symmetry. apply Ascii.eqb_neq. intros ->. now apply Hne.
Qed.

Lemma includes_hash_cons (c : ascii) (s : string) :
  Js.includes "#" (String c s) = Ascii.eqb c hash || Js.includes "#" s.
Proof.
  change (Js.includes "#" (String c s))
    with (if String.prefix "#" (String c s) then true else Js.includes "#" s).
  rewrite prefix_hash. now destruct (Ascii.eqb c hash).
Qed.

Lemma split_unfold (s : string) :
  Js.split hash s =
  OAuth.before_first_hash s ::
    (if Js.includes "#" s then Js.split hash (OAuth.after_first_hash s) else []).
Proof.
  induction s as [|c s IH]; [reflexivity|].
  rewrite includes_hash_cons. cbn [Js.split OAuth.before_first_hash OAuth.after_first_hash].
  destruct (Ascii.eqb c hash); cbn [orb].
  - reflexivity.
  - now rewrite IH.
Qed.

Lemma no_hash_before (s : string) :
  Js.includes "#" s = false -> OAuth.before_first_hash s = s.
Proof.
  induction s as [|c s IH]; [reflexivity|].
  rewrite includes_hash_cons. cbn [OAuth.before_first_hash].
  destruct (Ascii.eqb c hash); cbn [orb]; [discriminate|].
  intros H. now rewrite IH.
Qed.

Lemma no_hash_after (s : string) :
  Js.includes "#" s = false -> OAuth.after_first_hash s = "".
Proof.
  induction s as [|c s IH]; [reflexivity|].
  rewrite includes_hash_cons. cbn [OAuth.after_first_hash].
  destruct (Ascii.eqb c hash); cbn [orb]; [discriminate|exact IH].
Qed.

Lemma or_str_empty (s : string) : Js.or_str (Some s) "" = s.
Proof.
  unfold Js.or_str, Js.nonempty. destruct (String.eqb_spec s ""); cbn; congruence.
Qed.

Lemma authCode_before (code : string) :
  OAuth.authCode code = OAuth.before_first_hash code.
Proof.
  unfold OAuth.authCode, OAuth.split_code.
  destruct (Js.includes "#" code) eqn:Hinc; cbn [fst].
  - now rewrite split_unfold.
  - symmetry. now apply no_hash_before.
Qed.

Lemma extractedState_between (code : string) :
  OAuth.extractedState code =
  OAuth.before_first_hash (OAuth.after_first_hash code).
Proof.
  unfold OAuth.extractedState, OAuth.split_code.
  destruct (Js.includes "#" code) eqn:Hinc; cbn [snd].
  - rewrite split_unfold, Hinc.
    rewrite (split_unfold (OAuth.after_first_hash code)).
    cbn [Js.index nth_error]. apply or_str_empty.
  - now rewrite no_hash_after.
Qed.

Section ExchangeCode.

Import OAuth.

Variable fetch : string -> RequestInit -> outcome thrown Response.
Variable JSON_parse : string -> outcome thrown json_value.

(** Whatever the endpoint answers, one request is sent, and it is
    [tokenRequest]. *)
Lemma exchangeCode_fetches code verifier config stateParam now :
  fetches (trace (exchangeCode fetch JSON_parse code verifier config stateParam now))
  = [(tokenUrl config, tokenRequest code verifier config stateParam)].
Proof.
  unfold exchangeCode.
  destruct (fetch (tokenUrl config) (tokenRequest code verifier config stateParam))
    as [r|e]; cbn; [|reflexivity].
  destruct (ok r); cbn.
  - destruct (json r); reflexivity.
  - unfold read_error_details.
    destruct (text r) as [t|]; cbn; [|reflexivity].
    destruct (JSON_parse t); reflexivity.
Qed.

(** C3 (as amended).  The token request carries, as [code], the part of
    the input before its first [#]; as [state], a non-empty [stateParam]
    when one is given and otherwise the part of the input between its
    first and its second [#] (up to the end when there is no second
    one).  An input without [#] is sent whole, with an empty fallback
    state. *)
Theorem exchangeCode_code_and_state code verifier config stateParam now :
  exists init,
    fetches (trace (exchangeCode fetch JSON_parse code verifier config
                      stateParam now)) = [(tokenUrl config, init)] /\
    field "code" (body init) = Some (before_first_hash code) /\
    field "state" (body init) =
      Some (match stateParam with
            | Some s =>
                if Js.nonempty s then s
                else before_first_hash (after_first_hash code)
            | None => before_first_hash (after_first_hash code)
            end) /\
    (Js.includes "#" code = false ->
     before_first_hash code = code /\
     before_first_hash (after_first_hash code) = "").
Proof.
  exists (tokenRequest code verifier config stateParam).
  split; [apply exchangeCode_fetches|].
  split; [cbn; now rewrite authCode_before|].
  split.
  - cbn. unfold finalState, Js.or_str. rewrite extractedState_between.
    reflexivity.
  - intros H. split; [now apply no_hash_before|].
    now rewrite no_hash_after.
Qed.


(** C8 (as amended).  Every exchange sends exactly one request, to the
    token URL: a POST whose body has exactly the six fields of the
    contract, under three headers: Content-Type, Accept and User-Agent. *)
Theorem exchangeCode_wire_request code verifier config stateParam now :
  fetches (trace (exchangeCode fetch JSON_parse code verifier config
                    stateParam now))
  = [ (tokenUrl config,
       {| method := "POST";
          headers := [ ("Content-Type", "application/json");
                       ("Accept", "application/json, text/plain, */*");
                       ("User-Agent", "axios/1.8.4") ];
          body := [ ("grant_type", "authorization_code");
                    ("code", authCode code);
                    ("redirect_uri", redirectUri config);
                    ("client_id", clientId config);
                    ("code_verifier", verifier);
                    ("state", finalState code stateParam) ] |}) ].
Proof. apply exchangeCode_fetches. Qed.

(** C6.  A success response whose payload is
    [{access_token, refresh_token, expires_in}] yields the token result
    with these tokens and [expiresAt = now + expires_in * 1000]; with
    [expires_in = 3600] that is within a second of [now + 3600000]. *)
Theorem exchangeCode_success code verifier config stateParam now r payload :
  fetch (tokenUrl config) (tokenRequest code verifier config stateParam)
    = Returned r ->
  ok r = true ->
  json r = Returned payload ->
  result (exchangeCode fetch JSON_parse code verifier config stateParam now)
    = Returned {| refreshToken := refresh_token payload;
                  accessToken := access_token payload;
                  expiresAt := now + expires_in payload * 1000 |} /\
  (expires_in payload = 3600 ->
   Z.abs (now + expires_in payload * 1000 - (now + 3600000)) <= 1000).
Proof.
  intros Hfetch Hok Hjson. split.
  - unfold exchangeCode. rewrite Hfetch. cbn. rewrite Hok. cbn.
    rewrite Hjson. reflexivity.
  - intros ->. lia.
Qed.


End ExchangeCode.

(** C6 at the stub endpoint of the specification's round trip. *)
Lemma exchangeCode_success_witness :
  result (OAuth.exchangeCode (Double.fetch_answering Double.token_response)
            Double.parse_nothing "abc123#stateXYZ" "verifier" Double.config
            None 1700000000000)
    = Returned {| OAuth.refreshToken := "R";
                  OAuth.accessToken := "T";
                  OAuth.expiresAt := 1700003600000 |} /\
  (3600 = 3600 ->
   Z.abs (1700000000000 + 3600 * 1000 - (1700000000000 + 3600000)) <= 1000).
Proof.
  apply (exchangeCode_success (Double.fetch_answering Double.token_response)
           Double.parse_nothing "abc123#stateXYZ" "verifier" Double.config None
           1700000000000 Double.token_response
           {| OAuth.refresh_token := "R"; OAuth.access_token := "T";
              OAuth.expires_in := 3600 |}); reflexivity.
Defined.


(** The claim C3 as stated fails: for a code with two [#], the state sent
    is not everything after the first [#]. *)
Lemma exchangeCode_state_is_not_rest_of_code :
  ~ (exists init,
       OAuth.fetches
         (trace (OAuth.exchangeCode (Double.fetch_answering Double.token_response)
                   Double.parse_nothing "abc#st#rest" "verifier" Double.config
                   None 0))
         = [(OAuth.tokenUrl Double.config, init)] /\
       OAuth.field "state" (OAuth.body init)
         = Some (OAuth.after_first_hash "abc#st#rest")).
Proof.
  intros (init & Hsent & Hstate).
  vm_compute in Hsent. injection Hsent as <-.
  vm_compute in Hstate. discriminate Hstate.
Qed.

(** The claim C8 as stated fails: the request carries a header that is not
    among the two of the contract. *)
Lemma exchangeCode_sends_a_third_header :
  ~ (exists init,
       OAuth.fetches
         (trace (OAuth.exchangeCode (Double.fetch_answering Double.token_response)
                   Double.parse_nothing "abc123" "verifier" Double.config
                   None 0))
         = [(OAuth.tokenUrl Double.config, init)] /\
       forall h, In h (OAuth.headers init) ->
                 In h OAuth.wire_headers_as_specified).
Proof.
  intros (init & Hsent & Hheaders).
  vm_compute in Hsent. injection Hsent as <-.
  specialize (Hheaders ("User-Agent", "axios/1.8.4")).
  cbn in Hheaders.
  destruct Hheaders as [H|[H|[]]]; [tauto|discriminate H|discriminate H].
Qed.


(* ===================================================================== *)
(** ** Facts about the session store                                      *)
(* ===================================================================== *)

Section SessionStore.

Import Sessions.

Lemma getSession_stored (table : gmap string Row) id row now :
  table !! id = Some row ->
  getSession table id now =
    if (expires_at row >? now)%Z then Some (session_of_row row) else None.
Proof. intros H. unfold getSession. now rewrite H. Qed.

Lemma createSession_row (table table' : gmap string Row)
    id acct verif m t ttlMinutes st created :
  createSession table id acct verif m t ttlMinutes st created = Returned table' ->
  table !! id = None /\
  table' !! id =
    Some {| account_name := acct;
            row_verifier := verif;
            row_mode := m;
            row_tier := t;
            created_at := created;
            expires_at := created + ttl_or_default ttlMinutes * 60 * 1000;
            row_state := Js.or st None |}.
Proof.
  unfold createSession. destruct (table !! id) eqn:Hid; [discriminate|].
  intros [= <-]. split; [reflexivity|]. apply lookup_insert_eq.
Qed.

(** C5.  A stored session is returned exactly while the read time is
    strictly before its [expires_at]; an unknown id reads as absent.  A
    session created at [created] expires at [created] plus the ttl, which
    is the given number of minutes, and ten minutes when none is given: it
    is returned one millisecond before that instant and absent one
    millisecond after it, whatever the ttl. *)
Theorem getSession_until_expiry (table : gmap string Row) id now :
  (forall row, table !! id = Some row ->
     (getSession table id now = Some (session_of_row row)
        <-> now < expires_at row) /\
     (getSession table id now = None <-> expires_at row <= now)) /\
  (table !! id = None -> getSession table id now = None) /\
  (forall acct verif m t ttlMinutes st created table' ttl,
     createSession table id acct verif m t ttlMinutes st created
       = Returned table' ->
     ttl = match ttlMinutes with
           | Some minutes => minutes * 60 * 1000
           | None => 600000
           end ->
     exists row,
       table' !! id = Some row /\
       created_at row = created /\
       expires_at row = created + ttl /\
       (getSession table' id now = Some (session_of_row row)
          <-> now < created + ttl) /\
       (getSession table' id now = None <-> created + ttl <= now) /\
       getSession table' id (created + ttl - 1) = Some (session_of_row row) /\
       getSession table' id (created + ttl + 1) = None) /\
  ttl_or_default None * 60 * 1000 = 600000.
Proof.
  split; [|split; [|split]].
  - intros row Hrow. rewrite (getSession_stored _ _ _ _ Hrow).
    destruct (Z.gtb_spec (expires_at row) now); split; split;
      intros; try discriminate; try reflexivity; lia.
  - intros H. unfold getSession. now rewrite H.
  - intros acct verif m t ttlMinutes st created table' ttl Hcreate Httl.
    apply createSession_row in Hcreate as [_ Hrow].
    replace (ttl_or_default ttlMinutes * 60 * 1000) with ttl in Hrow
      by (subst ttl; now destruct ttlMinutes).
    eexists. split; [exact Hrow|].
    rewrite !(getSession_stored _ _ _ _ Hrow). cbn [created_at expires_at].
    split; [reflexivity|]. split; [reflexivity|].
    split; [|split; [|split]].
    + destruct (Z.gtb_spec (created + ttl) now);
        split; intros; try discriminate; try reflexivity; lia.
    + destruct (Z.gtb_spec (created + ttl) now);
        split; intros; try discriminate; try reflexivity; lia.
    + destruct (Z.gtb_spec (created + ttl) (created + ttl - 1));
        [reflexivity|lia].
    + destruct (Z.gtb_spec (created + ttl) (created + ttl + 1));
        [lia|reflexivity].
  - reflexivity.
Qed.

End SessionStore.

(** C5 on the empty table: a session created at time 1000 with the default
    ttl is read at 1000 + 600000 - 1 and absent at 1000 + 600000 + 1; one
    created with a ttl of two minutes is read at 1000 + 120000 - 1 and
    absent at 1000 + 120000 + 1. *)
Lemma getSession_until_expiry_witness :
  (exists table',
     Sessions.createSession ∅ "s1" "alice" "verifier" OAuth.mode_max 1 None
       (Some "st") 1000 = Returned table' /\
     Sessions.getSession table' "s1" 600999
       = Some {| Sessions.accountName := "alice";
                 Sessions.verifier := "verifier";
                 Sessions.state := Some "st";
                 Sessions.mode := OAuth.mode_max;
                 Sessions.tier := 1 |} /\
     Sessions.getSession table' "s1" 601001 = None) /\
  (exists table',
     Sessions.createSession ∅ "s1" "alice" "verifier" OAuth.mode_max 1 (Some 2)
       (Some "st") 1000 = Returned table' /\
     Sessions.getSession table' "s1" 120999
       = Some {| Sessions.accountName := "alice";
                 Sessions.verifier := "verifier";
                 Sessions.state := Some "st";
                 Sessions.mode := OAuth.mode_max;
                 Sessions.tier := 1 |} /\
     Sessions.getSession table' "s1" 121001 = None).
Proof.
  destruct (getSession_until_expiry ∅ "s1" 0) as (_ & _ & Hcreated & _).
  split.
  - eexists. split; [reflexivity|].
    destruct (Hcreated "alice" "verifier" OAuth.mode_max 1 None (Some "st") 1000
                _ 600000 eq_refl eq_refl)
      as (row & Hrow & _ & _ & _ & _ & Hbefore & Hafter).
    rewrite lookup_insert_eq in Hrow. injection Hrow as <-.
    split; [exact Hbefore|exact Hafter].
  - eexists. split; [reflexivity|].
    destruct (Hcreated "alice" "verifier" OAuth.mode_max 1 (Some 2) (Some "st")
                1000 _ 120000 eq_refl eq_refl)
      as (row & Hrow & _ & _ & _ & _ & Hbefore & Hafter).
    rewrite lookup_insert_eq in Hrow. injection Hrow as <-.
    split; [exact Hbefore|exact Hafter].
Defined.

(* ===================================================================== *)
(** ** Facts about computations                                           *)
(* ===================================================================== *)

Section Runs.

Context {Ev E : Type}.

Lemma result_bind {A B} (m : run Ev E A) (k : A -> run Ev E B) :
  result (bind m k) =
    match result m with
    | Returned a => result (k a)
    | Thrown e => Thrown e
    end.
Proof.
  destruct m as [t [a|e]]; cbn; [|reflexivity].
  now destruct (k a).
Qed.

Lemma trace_bind {A B} (m : run Ev E A) (k : A -> run Ev E B) :
  trace (bind m k) =
    (trace m ++ match result m with
                | Returned a => trace (k a)
                | Thrown _ => []
                end)%list.
Proof.
  destruct m as [t [a|e]]; cbn; [|now rewrite app_nil_r].
  now destruct (k a).
Qed.

Lemma result_try_catch {E' A} (m : run Ev E A) (h : E -> run Ev E' A) :
  result (try_catch m h) =
    match result m with
    | Returned a => Returned a
    | Thrown e => result (h e)
    end.
Proof.
  destruct m as [t [a|e]]; cbn; [reflexivity|].
  now destruct (h e).
Qed.

Lemma trace_try_catch {E' A} (m : run Ev E A) (h : E -> run Ev E' A) :
  trace (try_catch m h) =
    (trace m ++ match result m with
                | Returned _ => []
                | Thrown e => trace (h e)
                end)%list.
Proof.
  destruct m as [t [a|e]]; cbn; [now rewrite app_nil_r|].
  now destruct (h e).
Qed.

Lemma result_lift_exn {E' A} (f : E -> E') (m : run Ev E A) :
  result (lift_exn f m) =
    match result m with
    | Returned a => Returned a
    | Thrown e => Thrown (f e)
    end.
Proof. now destruct m as [t [a|e]]. Qed.

Lemma trace_lift_exn {E' A} (f : E -> E') (m : run Ev E A) :
  trace (lift_exn f m) = trace m.
Proof. now destruct m as [t [a|e]]. Qed.

End Runs.

(* ===================================================================== *)
(** ** Facts about the proxy operations                                   *)
(* ===================================================================== *)

Section LogsOnly.

Import Proxy.

Lemma calls_app (t1 t2 : list event) :
  calls (t1 ++ t2)%list = (calls t1 ++ calls t2)%list.
Proof. apply List.filter_app. Qed.

Lemma calls_bind {E A B} (m : run event E A) (k : A -> run event E B) :
  calls (trace (bind m k)) =
    (calls (trace m) ++ match result m with
                        | Returned a => calls (trace (k a))
                        | Thrown _ => []
                        end)%list.
Proof. rewrite trace_bind, calls_app. now destruct (result m). Qed.

Lemma silent_ret {E} : silent (E := E) (ret tt).
Proof. now split. Qed.

Lemma silent_log {E} l message : silent (E := E) (log l message).
Proof. now split. Qed.

Lemma silent_headers {E} h : silent (E := E) (emit (LogHeaders h)).
Proof. now split. Qed.

Lemma silent_bind {E} (m : run event E unit) (k : unit -> run event E unit) :
  silent m -> silent (k tt) -> silent (bind m k).
Proof.
  intros [Hr Hc] [Hr' Hc']. split.
  - now rewrite result_bind, Hr.
  - now rewrite calls_bind, Hr, Hc, Hc'.
Qed.

Lemma silent_when {E} b (m : run event E unit) : silent m -> silent (when b m).
Proof. destruct b; [trivial|intros _; apply silent_ret]. Qed.

Lemma silent_special_case_notice : silent special_case_notice.
Proof. now split. Qed.

Lemma silent_log_auth_error resp : silent (log_auth_error resp).
Proof.
  unfold log_auth_error.
  destruct (_ || _); [|apply silent_ret].
  destruct (headers_get _ _) as [h|]; [|apply silent_ret].
  destruct (Js.includes _ _); [|apply silent_ret].
  destruct (clone_text resp); [apply silent_log|apply silent_ret].
Qed.

(** Logging neither changes how a computation ends nor adds a call. *)
Lemma result_after_silent {E B} (m : run event E unit) (k : unit -> run event E B) :
  silent m -> result (bind m k) = result (k tt).
Proof. intros [Hr _]. now rewrite result_bind, Hr. Qed.

Lemma calls_after_silent {E B} (m : run event E unit) (k : unit -> run event E B) :
  silent m -> calls (trace (bind m k)) = calls (trace (k tt)).
Proof. intros [Hr Hc]. now rewrite calls_bind, Hr, Hc. Qed.

Lemma result_after_call {E A B} ev (o : outcome E A) (k : A -> run event E B) :
  result (bind (call ev o) k) =
    match o with
    | Returned a => result (k a)
    | Thrown e => Thrown e
    end.
Proof. now rewrite result_bind. Qed.

Lemma calls_after_call {E A B} ev (o : outcome E A) (k : A -> run event E B) :
  is_log ev = false ->
  calls (trace (bind (call ev o) k)) =
    ev :: match o with
          | Returned a => calls (trace (k a))
          | Thrown _ => []
          end.
Proof.
  intros Hev. rewrite calls_bind. unfold call, calls at 1. cbn.
  now rewrite Hev.
Qed.

End LogsOnly.

Create HintDb silent.
#[local] Hint Resolve silent_ret silent_log silent_headers silent_bind
  silent_when silent_special_case_notice silent_log_auth_error : silent.

Section ProxyOperations.

Import Proxy.

Variable ERROR_MESSAGES : ErrorMessages.
Variable CF_DEBUG_TRAFFIC : option string.
Variable makeProxyRequest :
  string -> string -> Headers -> BodyStreamFactory -> bool ->
  outcome thrown Response.
Variable getValidAccessToken : Account -> ProxyContext -> outcome thrown string.
Variable processProxyResponse :
  Response -> Account -> ProxyContext -> outcome thrown bool.
Variable forwardToClient :
  ForwardRecord -> ProxyContext -> outcome thrown (outcome thrown Response).

Variables (req : Request) (url : URL) (requestMeta : RequestMeta)
  (requestBodyBuffer : option string) (createBodyStream : BodyStreamFactory)
  (ctx : ProxyContext).

Local Abbreviation attempt acct failovers :=
  (account_attempt CF_DEBUG_TRAFFIC makeProxyRequest getValidAccessToken
     processProxyResponse forwardToClient req url acct requestMeta
     requestBodyBuffer createBodyStream failovers ctx).
Local Abbreviation send acct :=
  (upstream_send makeProxyRequest getValidAccessToken req url acct
     createBodyStream ctx).
Local Abbreviation record acct failovers resp :=
  (forward_record (Some acct) failovers req url requestMeta
     requestBodyBuffer resp).

Ltac skip_logs :=
  repeat first
    [ rewrite result_after_silent by auto 10 with silent
    | rewrite calls_after_silent by auto 10 with silent ].

(** How the [try] block of [proxyWithAccount] ends. *)
Lemma account_attempt_result acct failovers :
  result (attempt acct failovers) =
    match send acct with
    | Thrown e => Thrown e
    | Returned resp =>
        match processProxyResponse resp acct ctx with
        | Thrown e => Thrown e
        | Returned true => Returned Null
        | Returned false =>
            match forwardToClient (record acct failovers resp) ctx with
            | Thrown e => Thrown e
            | Returned p => Returned (Promise p)
            end
        end
    end.
Proof.
  unfold account_attempt, upstream_send. cbv zeta.
  skip_logs. rewrite result_after_call.
  destruct (getValidAccessToken acct ctx) as [tok|]; [|reflexivity].
  skip_logs. rewrite result_after_call.
  destruct (prepareHeaders _ _ _ _) as [h|]; [|reflexivity].
  rewrite result_after_call.
  destruct (buildUrl _ _ _) as [u|]; [|reflexivity].
  skip_logs. rewrite result_after_call.
  destruct (makeProxyRequest _ _ _ _ _) as [resp|]; [|reflexivity].
  skip_logs. rewrite result_after_call.
  destruct (processProxyResponse _ _ _) as [[|]|]; [reflexivity| |reflexivity].
  rewrite result_after_call.
  now destruct (forwardToClient _ _).
Qed.

(** The calls the [try] block of [proxyWithAccount] makes, in order. *)
Lemma account_attempt_calls acct failovers :
  calls (trace (attempt acct failovers)) =
    GetValidAccessToken acct ::
    match getValidAccessToken acct ctx with
    | Thrown _ => []
    | Returned tok =>
        PrepareHeaders (req_headers req) (Some tok) (Js.or (api_key acct) None) ::
        match prepareHeaders (provider ctx) (req_headers req) (Some tok)
                (Js.or (api_key acct) None) with
        | Thrown _ => []
        | Returned h =>
            BuildUrl (pathname url) (search url) ::
            match buildUrl (provider ctx) (pathname url) (search url) with
            | Thrown _ => []
            | Returned u =>
                MakeProxyRequest u (req_method req) h (req_has_body req) ::
                match makeProxyRequest u (req_method req) h createBodyStream
                        (req_has_body req) with
                | Thrown _ => []
                | Returned resp =>
                    ProcessProxyResponse resp acct ::
                    match processProxyResponse resp acct ctx with
                    | Returned false => [ForwardToClient (record acct failovers resp)]
                    | _ => []
                    end
                end
            end
        end
    end.
Proof.
  unfold account_attempt. cbv zeta.
  skip_logs. rewrite calls_after_call by reflexivity. f_equal.
  destruct (getValidAccessToken acct ctx) as [tok|]; [|reflexivity].
  skip_logs. rewrite calls_after_call by reflexivity. f_equal.
  destruct (prepareHeaders _ _ _ _) as [h|]; [|reflexivity].
  rewrite calls_after_call by reflexivity. f_equal.
  destruct (buildUrl _ _ _) as [u|]; [|reflexivity].
  skip_logs. rewrite calls_after_call by reflexivity. f_equal.
  destruct (makeProxyRequest _ _ _ _ _) as [resp|]; [|reflexivity].
  skip_logs. rewrite calls_after_call by reflexivity. f_equal.
  destruct (processProxyResponse _ _ _) as [[|]|]; [reflexivity| |reflexivity].
  rewrite calls_after_call by reflexivity.
  now destruct (forwardToClient _ _).
Qed.

Local Abbreviation withAccount acct failovers :=
  (proxyWithAccount CF_DEBUG_TRAFFIC makeProxyRequest getValidAccessToken
     processProxyResponse forwardToClient req url acct requestMeta
     requestBodyBuffer createBodyStream failovers ctx).

Lemma proxyWithAccount_result acct failovers :
  result (withAccount acct failovers) =
    match result (attempt acct failovers) with
    | Returned Null => Returned None
    | Returned (Promise (Returned r)) => Returned (Some r)
    | Returned (Promise (Thrown e)) => Thrown e
    | Thrown _ => Returned None
    end.
Proof.
  unfold proxyWithAccount. rewrite result_bind, result_try_catch.
  destruct (result (attempt acct failovers)) as [[|[r|e]]|e]; reflexivity.
Qed.

Lemma proxyWithAccount_calls acct failovers :
  calls (trace (withAccount acct failovers)) =
    (calls (trace (attempt acct failovers)) ++
     match result (attempt acct failovers) with
     | Thrown e => [HandleProxyError e acct]
     | Returned _ => []
     end)%list.
Proof.
  unfold proxyWithAccount.
  rewrite calls_bind, result_try_catch, trace_try_catch, calls_app.
  destruct (result (attempt acct failovers)) as [[|[r|e]]|e]; cbn;
    now rewrite ?app_nil_r.
Qed.

Ltac open_send H :=
  unfold upstream_send in H;
  destruct (getValidAccessToken _ _) as [?tok|?e] eqn:?Htok;
    [destruct (prepareHeaders _ _ _ _) as [?h|?e] eqn:?Hhdr;
       [destruct (buildUrl _ _ _) as [?u|?e] eqn:?Hurl|]|].

(** C1 (as amended).  An attempt with an account throws nothing of
    what is thrown while the request is prepared, sent, classified or
    handed to the forwarding collaborator: such an exception is passed to
    [handleProxyError] and the attempt returns [null].  A response
    classified as rate-limited makes it return [null] right after the
    classification.  Every other response, whatever its status, is handed
    to [forwardToClient] in the forwarding record of this account and this
    response, and the promise that call returns decides the outcome: its
    value is returned, and its rejection, the one exception that reaches
    the caller, is thrown. *)
Theorem proxyWithAccount_outcomes acct failovers :
  (forall e,
     result (withAccount acct failovers) = Thrown e ->
     exists resp,
       send acct = Returned resp /\
       processProxyResponse resp acct ctx = Returned false /\
       forwardToClient (record acct failovers resp) ctx = Returned (Thrown e)) /\
  (forall e, send acct = Thrown e ->
     ends_with (withAccount acct failovers) None (HandleProxyError e acct)) /\
  (forall resp e,
     send acct = Returned resp ->
     processProxyResponse resp acct ctx = Thrown e ->
     ends_with (withAccount acct failovers) None (HandleProxyError e acct)) /\
  (forall resp e,
     send acct = Returned resp ->
     processProxyResponse resp acct ctx = Returned false ->
     forwardToClient (record acct failovers resp) ctx = Thrown e ->
     ends_with (withAccount acct failovers) None (HandleProxyError e acct)) /\
  (forall resp,
     send acct = Returned resp ->
     processProxyResponse resp acct ctx = Returned true ->
     ends_with (withAccount acct failovers) None (ProcessProxyResponse resp acct)) /\
  (forall resp r,
     send acct = Returned resp ->
     processProxyResponse resp acct ctx = Returned false ->
     forwardToClient (record acct failovers resp) ctx = Returned (Returned r) ->
     ends_with (withAccount acct failovers) (Some r)
       (ForwardToClient (record acct failovers resp))) /\
  (forall resp e,
     send acct = Returned resp ->
     processProxyResponse resp acct ctx = Returned false ->
     forwardToClient (record acct failovers resp) ctx = Returned (Thrown e) ->
     result (withAccount acct failovers) = Thrown e /\
     last (calls (trace (withAccount acct failovers)))
       = Some (ForwardToClient (record acct failovers resp))) /\
  (forall resp,
     account (record acct failovers resp) = Some acct /\
     response (record acct failovers resp) = resp /\
     failoverAttempts (record acct failovers resp) = failovers /\
     requestId (record acct failovers resp) = id requestMeta).
Proof.
  unfold ends_with.
  rewrite proxyWithAccount_result, proxyWithAccount_calls, account_attempt_calls,
    account_attempt_result.
  repeat match goal with |- _ /\ _ => split end.
  - intros e.
    destruct (send acct) as [resp|]; [|discriminate].
    destruct (processProxyResponse resp acct ctx) as [[|]|] eqn:Hclass;
      try discriminate.
    destruct (forwardToClient _ ctx) as [[r|e']|] eqn:Hfwd; try discriminate.
    intros [= ->]. now exists resp.
  - intros e Hsend. rewrite Hsend. split; [reflexivity|].
    open_send Hsend; try discriminate; now rewrite ?Hsend.
  - intros resp e Hsend Hclass. rewrite Hsend, Hclass. split; [reflexivity|].
    open_send Hsend; try discriminate. now rewrite Hsend, Hclass.
  - intros resp e Hsend Hclass Hfwd. rewrite Hsend, Hclass, Hfwd.
    split; [reflexivity|].
    open_send Hsend; try discriminate. now rewrite Hsend, Hclass.
  - intros resp Hsend Hclass. rewrite Hsend, Hclass. split; [reflexivity|].
    open_send Hsend; try discriminate. now rewrite Hsend, Hclass.
  - intros resp r Hsend Hclass Hfwd. rewrite Hsend, Hclass, Hfwd.
    split; [reflexivity|].
    open_send Hsend; try discriminate. now rewrite Hsend, Hclass.
  - intros resp e Hsend Hclass Hfwd. rewrite Hsend, Hclass, Hfwd.
    split; [reflexivity|].
    open_send Hsend; try discriminate. now rewrite Hsend, Hclass.
  - intros resp. now repeat split.
Qed.

Lemma upstream_attempts_calls (t : list event) :
  upstream_attempts (calls t) = upstream_attempts t.
Proof.
  induction t as [|ev t IH]; [reflexivity|].
  destruct ev; cbn; try exact IH. f_equal. exact IH.
Qed.




(** A promise of the forwarding collaborator that rejects is not caught
    by the [try] block it is returned from. *)
Remark proxyWithAccount_rejected_forward acct failovers resp e :
  send acct = Returned resp ->
  processProxyResponse resp acct ctx = Returned false ->
  forwardToClient (record acct failovers resp) ctx = Returned (Thrown e) ->
  result (withAccount acct failovers) = Thrown e.
Proof.
  intros Hsend Hclass Hfwd.
  now rewrite proxyWithAccount_result, account_attempt_result, Hsend, Hclass, Hfwd.
Qed.

Local Abbreviation unauthenticated :=
  (proxyUnauthenticated ERROR_MESSAGES CF_DEBUG_TRAFFIC makeProxyRequest
     forwardToClient req url requestMeta requestBodyBuffer createBodyStream ctx).
Local Abbreviation bare_attempt u h :=
  (unauthenticated_attempt CF_DEBUG_TRAFFIC makeProxyRequest forwardToClient
     req url requestMeta requestBodyBuffer createBodyStream ctx u h).
Local Abbreviation bare_record resp :=
  (forward_record None 0 req url requestMeta requestBodyBuffer resp).

Lemma unauthenticated_attempt_result u h :
  result (bare_attempt u h) =
    match makeProxyRequest u (req_method req) h createBodyStream
            (req_has_body req) with
    | Thrown e => Thrown e
    | Returned resp =>
        match forwardToClient (bare_record resp) ctx with
        | Thrown e => Thrown e
        | Returned p => Returned (Promise p)
        end
    end.
Proof.
  unfold unauthenticated_attempt.
  skip_logs. rewrite result_after_call.
  destruct (makeProxyRequest _ _ _ _ _) as [resp|]; [|reflexivity].
  skip_logs. cbv zeta. rewrite result_after_call.
  now destruct (forwardToClient _ _).
Qed.

Lemma unauthenticated_attempt_calls u h :
  calls (trace (bare_attempt u h)) =
    MakeProxyRequest u (req_method req) h (req_has_body req) ::
    match makeProxyRequest u (req_method req) h createBodyStream
            (req_has_body req) with
    | Thrown _ => []
    | Returned resp => [ForwardToClient (bare_record resp)]
    end.
Proof.
  unfold unauthenticated_attempt.
  skip_logs. rewrite calls_after_call by reflexivity. f_equal.
  destruct (makeProxyRequest _ _ _ _ _) as [resp|]; [|reflexivity].
  skip_logs. cbv zeta. rewrite calls_after_call by reflexivity.
  now destruct (forwardToClient _ _).
Qed.

Lemma proxyUnauthenticated_result u h :
  buildUrl (provider ctx) (pathname url) (search url) = Returned u ->
  prepareHeaders (provider ctx) (req_headers req) None None = Returned h ->
  result unauthenticated =
    match result (bare_attempt u h) with
    | Returned Null => Returned None
    | Returned (Promise (Returned r)) => Returned (Some r)
    | Returned (Promise (Thrown e)) => Thrown (Uncaught e)
    | Thrown e =>
        Thrown (ProviderError (UNAUTHENTICATED_FAILED ERROR_MESSAGES)
                  (provider_name (provider ctx)) 502 (error_detail e))
    end.
Proof.
  intros Hurl Hhdr. unfold proxyUnauthenticated.
  skip_logs. rewrite result_bind, result_lift_exn, Hurl. cbn [call result snd].
  rewrite result_bind, result_lift_exn, Hhdr. cbn [call result snd].
  rewrite result_bind, result_try_catch.
  destruct (result (bare_attempt u h)) as [[|[r|e]]|e]; reflexivity.
Qed.

Lemma proxyUnauthenticated_calls u h :
  buildUrl (provider ctx) (pathname url) (search url) = Returned u ->
  prepareHeaders (provider ctx) (req_headers req) None None = Returned h ->
  calls (trace unauthenticated) =
    BuildUrl (pathname url) (search url) ::
    PrepareHeaders (req_headers req) None None ::
    (calls (trace (bare_attempt u h)) ++
     match result (bare_attempt u h) with
     | Thrown e => [LogError e]
     | Returned _ => []
     end)%list.
Proof.
  intros Hurl Hhdr. unfold proxyUnauthenticated.
  skip_logs.
  rewrite calls_bind, trace_lift_exn, result_lift_exn, Hurl. cbn [call result snd].
  unfold calls at 1. cbn [trace fst List.filter is_log negb app]. f_equal.
  rewrite calls_bind, trace_lift_exn, result_lift_exn, Hhdr. cbn [call result snd].
  unfold calls at 1. cbn [trace fst List.filter is_log negb app]. f_equal.
  rewrite calls_bind, trace_try_catch, result_try_catch, calls_app.
  destruct (result (bare_attempt u h)) as [[|[r|e]]|e]; cbn;
    now rewrite ?app_nil_r.
Qed.

(** A forwarding collaborator that throws while it is called also makes
    the unauthenticated fallback throw the [ProviderError]. *)
Remark proxyUnauthenticated_forward_throws u h resp e :
  buildUrl (provider ctx) (pathname url) (search url) = Returned u ->
  prepareHeaders (provider ctx) (req_headers req) None None = Returned h ->
  makeProxyRequest u (req_method req) h createBodyStream (req_has_body req)
    = Returned resp ->
  forwardToClient (bare_record resp) ctx = Thrown e ->
  result unauthenticated =
    Thrown (ProviderError (UNAUTHENTICATED_FAILED ERROR_MESSAGES)
              (provider_name (provider ctx)) 502 (error_detail e)).
Proof.
  intros Hurl Hhdr Hsent Hfwd.
  now rewrite (proxyUnauthenticated_result u h Hurl Hhdr),
    unauthenticated_attempt_result, Hsent, Hfwd.
Qed.

(** An exception of the provider's header construction is outside the
    [try] block: it is thrown as it is, and no upstream request is made. *)
Remark proxyUnauthenticated_provider_throws u e :
  buildUrl (provider ctx) (pathname url) (search url) = Returned u ->
  prepareHeaders (provider ctx) (req_headers req) None None = Thrown e ->
  result unauthenticated = Thrown (Uncaught e) /\
  upstream_attempts (trace unauthenticated) = [].
Proof.
  intros Hurl Hhdr. unfold proxyUnauthenticated. split.
  - skip_logs. rewrite result_bind, result_lift_exn, Hurl. cbn [call result snd].
    now rewrite result_bind, result_lift_exn, Hhdr.
  - rewrite <- upstream_attempts_calls. skip_logs.
    rewrite calls_bind, trace_lift_exn, result_lift_exn, Hurl. cbn [call result snd].
    now rewrite calls_bind, trace_lift_exn, result_lift_exn, Hhdr.
Qed.

End ProxyOperations.

(** C1 on three upstreams: a 401 is forwarded, a 429 that the inspector
    classifies as rate-limited yields [null], and so does an upstream that
    cannot be reached. *)
Lemma proxyWithAccount_outcomes_witness :
  result (Proxy.proxyWithAccount None
            (Double.upstream_answering Double.unauthorized)
            Double.token_of_account Double.rate_limited_on_429
            Double.forward_as_is Double.cli_request Double.messages_url
            Double.max_account Double.meta None Double.no_body 0 Double.ctx)
    = Returned (Some Double.unauthorized) /\
  result (Proxy.proxyWithAccount None
            (Double.upstream_answering Double.too_many_requests)
            Double.token_of_account Double.rate_limited_on_429
            Double.forward_as_is Double.cli_request Double.messages_url
            Double.max_account Double.meta None Double.no_body 0 Double.ctx)
    = Returned None /\
  result (Proxy.proxyWithAccount None Double.upstream_unreachable
            Double.token_of_account Double.rate_limited_on_429
            Double.forward_as_is Double.cli_request Double.messages_url
            Double.max_account Double.meta None Double.no_body 0 Double.ctx)
    = Returned None.
Proof.
  split; [|split].
  - destruct (proxyWithAccount_outcomes None
                (Double.upstream_answering Double.unauthorized)
                Double.token_of_account Double.rate_limited_on_429
                Double.forward_as_is Double.cli_request Double.messages_url
                Double.meta None Double.no_body Double.ctx Double.max_account 0)
      as (_ & _ & _ & _ & _ & Hforwarded & _).
    exact (proj1 (Hforwarded Double.unauthorized Double.unauthorized
                    eq_refl eq_refl eq_refl)).
  - destruct (proxyWithAccount_outcomes None
                (Double.upstream_answering Double.too_many_requests)
                Double.token_of_account Double.rate_limited_on_429
                Double.forward_as_is Double.cli_request Double.messages_url
                Double.meta None Double.no_body Double.ctx Double.max_account 0)
      as (_ & _ & _ & _ & Hlimited & _).
    exact (proj1 (Hlimited Double.too_many_requests eq_refl eq_refl)).
  - destruct (proxyWithAccount_outcomes None Double.upstream_unreachable
                Double.token_of_account Double.rate_limited_on_429
                Double.forward_as_is Double.cli_request Double.messages_url
                Double.meta None Double.no_body Double.ctx Double.max_account 0)
      as (_ & Hthrown & _).
    exact (proj1 (Hthrown (ErrorInstance "ECONNREFUSED") eq_refl)).
Defined.

(** The claim C1 as stated fails: with a forwarding collaborator whose
    promise rejects, the attempt does not return; it throws. *)
Lemma proxyWithAccount_raises_rejected_forward :
  ~ (exists v,
       result (Proxy.proxyWithAccount None
                 (Double.upstream_answering Double.unauthorized)
                 Double.token_of_account Double.rate_limited_on_429
                 Double.forward_rejecting Double.cli_request Double.messages_url
                 Double.max_account Double.meta None Double.no_body 0 Double.ctx)
       = Returned v).
Proof.
  intros (v & H). vm_compute in H. discriminate H.
Qed.


(* ===================================================================== *)
(** ** Facts about the single-flight refresh                              *)
(* ===================================================================== *)

Section SingleFlight.

Import TokenManager.

Variable safetyMargin : Z.
Variables (a : string) (acc : Account) (rt : string).
Variable (st0 : State).

Local Abbreviation in_flight := (TokenManager.in_flight a acc rt st0).

Lemma requests_for_other b q (l : list (string * string)) :
  b <> a ->
  List.filter (fun q => String.eqb a (fst q)) (l ++ [(b, q)])%list
  = List.filter (fun q => String.eqb a (fst q)) l.
Proof.
  intros Hb. rewrite List.filter_app. cbn.
  destruct (String.eqb_spec a b); [congruence|]. now rewrite app_nil_r.
Qed.

Lemma delivered_for_others b (f : nat -> answer) (waiters : list nat) st delivered' :
  b <> a ->
  delivered st = (delivered' ++ map (fun c => (c, b, f c)) waiters)%list ->
  delivered_for a st =
    omap (fun d : nat * string * answer =>
            match d with
            | (c, b', r) => if String.eqb a b' then Some (c, r) else None
            end) delivered'.
Proof.
  intros Hb Hdel. unfold delivered_for. rewrite Hdel, omap_app.
  replace (omap _ (map _ waiters)) with (@nil (nat * answer));
    [now rewrite app_nil_r|].
  clear Hdel. induction waiters as [|c waiters IH]; [reflexivity|]. cbn.
  destruct (String.eqb_spec a b); [congruence|exact IH].
Qed.

Lemma delivered_for_other b c r st delivered' :
  b <> a ->
  delivered st = (delivered' ++ [(c, b, r)])%list ->
  delivered_for a st =
    omap (fun d : nat * string * answer =>
            match d with
            | (c, b', r) => if String.eqb a b' then Some (c, r) else None
            end) delivered'.
Proof.
  intros Hb Hdel.
  now apply (delivered_for_others b (fun _ => r) [c] st delivered' Hb).
Qed.

Lemma step_elsewhere cs st s :
  step_account s <> a ->
  in_flight cs st -> in_flight cs (exec safetyMargin st s).
Proof.
  intros Hb [Hacc Hin Hreq Hdel].
  destruct s as [c b now|b r]; cbn in Hb; cbn [exec].
  - unfold getValidAccessToken.
    destruct (accounts st !! b) as [accb|]; [|now split].
    destruct (refreshToken accb) as [rtb|].
    2:{ split; try assumption. rewrite <- Hdel.
        now apply (delivered_for_other b c (Returned "")). }
    destruct (cached safetyMargin accb now) as [t|].
    { split; try assumption. rewrite <- Hdel.
      now apply (delivered_for_other b c (Returned t)). }
    destruct (inflight st !! b) as [waiters|]; split; try assumption.
    + cbn. now rewrite lookup_insert_ne.
    + cbn. now rewrite lookup_insert_ne.
    + rewrite <- Hreq. unfold requests_for. cbn.
      now apply requests_for_other.
  - unfold settle.
    destruct (inflight st !! b) as [waiters|]; [|now split].
    destruct r as [tr|e]; split; try assumption.
    + cbn. now rewrite lookup_insert_ne.
    + cbn. now rewrite lookup_delete_ne.
    + rewrite <- Hdel.
      now apply (delivered_for_others b
                   (fun _ => Returned (OAuth.accessToken tr)) waiters).
    + cbn. now rewrite lookup_delete_ne.
    + rewrite <- Hdel.
      now apply (delivered_for_others b (fun _ => Thrown e) waiters).
Qed.

Lemma step_call cs st c now :
  refreshToken acc = Some rt ->
  cached safetyMargin acc now = None ->
  in_flight cs st ->
  in_flight (cs ++ [c]) (getValidAccessToken safetyMargin st c a now).
Proof.
  intros Hrt Hexpired [Hacc Hin Hreq Hdel].
  unfold getValidAccessToken. rewrite Hacc, Hrt, Hexpired, Hin.
  destruct cs as [|c0 cs]; split; cbn; try assumption.
  - apply lookup_insert_eq.
  - unfold requests_for in *. cbn. rewrite List.filter_app, Hreq. cbn.
    now rewrite String.eqb_refl, app_nil_r.
  - apply lookup_insert_eq.
Qed.

Lemma calls_run schedule : forall cs st,
  refreshToken acc = Some rt ->
  concurrent_calls safetyMargin a acc schedule ->
  in_flight cs st ->
  in_flight (cs ++ callers_of a schedule)
    (exec_all safetyMargin st schedule).
Proof.
  induction schedule as [|s schedule IH]; intros cs st Hrt Hconc Hinv.
  - cbn. now rewrite app_nil_r.
  - apply Forall_cons in Hconc as [Hs Hconc]. cbn [exec_all fold_left].
    destruct s as [c b now|b r].
    + destruct (String.eqb_spec a b) as [<-|Hne].
      * replace (callers_of a (Call c a now :: schedule))
          with (c :: callers_of a schedule)
          by (unfold callers_of; cbn; now rewrite String.eqb_refl).
        replace (cs ++ c :: callers_of a schedule)%list
          with ((cs ++ [c]) ++ callers_of a schedule)%list
          by now rewrite <- app_assoc.
        apply (IH _ _ Hrt Hconc). cbn [exec]. apply step_call; auto.
      * replace (callers_of a (Call c b now :: schedule))
          with (callers_of a schedule)
          by (unfold callers_of; cbn;
              destruct (String.eqb_spec a b); [congruence|reflexivity]).
        apply (IH _ _ Hrt Hconc). apply step_elsewhere; [|exact Hinv].
        cbn. congruence.
    + change (callers_of a (RefreshSettles b r :: schedule))
        with (callers_of a schedule).
      apply (IH _ _ Hrt Hconc). now apply step_elsewhere.
Qed.

Lemma delivered_to_waiters (r : answer) (waiters : list nat) :
  omap (fun d : nat * string * answer =>
          match d with
          | (c, b, r) => if String.eqb a b then Some (c, r) else None
          end) (map (fun c => (c, a, r)) waiters)
  = map (fun c => (c, r)) waiters.
Proof.
  induction waiters as [|c waiters IH]; [reflexivity|].
  cbn. rewrite String.eqb_refl. cbn. now rewrite <- IH.
Qed.

(** C4.  Let the cached token of account [a] be expired and no refresh
    for [a] be in flight.  Whatever the number of callers that ask for a
    token of [a] before the refresh settles, and however their calls
    interleave with calls and refreshes for other accounts, exactly one
    refresh request is sent for [a], and when it settles every one of
    these callers is handed the access token of its result.  A call for
    another account whose token is expired sends its own request at once,
    while the refresh for [a] is still in flight. *)
Theorem single_flight_refresh schedule tr :
  accounts st0 !! a = Some acc ->
  refreshToken acc = Some rt ->
  inflight st0 !! a = None ->
  concurrent_calls safetyMargin a acc schedule ->
  callers_of a schedule <> [] ->
  requests_for a
    (exec_all safetyMargin st0 (schedule ++ [RefreshSettles a (Returned tr)]))
    = (requests_for a st0 ++ [(a, rt)])%list /\
  delivered_for a
    (exec_all safetyMargin st0 (schedule ++ [RefreshSettles a (Returned tr)]))
    = (delivered_for a st0 ++
       map (fun c => (c, Returned (OAuth.accessToken tr)))
         (callers_of a schedule))%list /\
  inflight
    (exec_all safetyMargin st0 (schedule ++ [RefreshSettles a (Returned tr)]))
    !! a = None /\
  (forall b accb rtb c now,
     b <> a ->
     accounts (exec_all safetyMargin st0 schedule) !! b = Some accb ->
     refreshToken accb = Some rtb ->
     cached safetyMargin accb now = None ->
     inflight (exec_all safetyMargin st0 schedule) !! b = None ->
     inflight (exec_all safetyMargin st0 (schedule ++ [Call c b now])) !! a
       = Some (callers_of a schedule) /\
     inflight (exec_all safetyMargin st0 (schedule ++ [Call c b now])) !! b
       = Some [c] /\
     requests (exec_all safetyMargin st0 (schedule ++ [Call c b now]))
       = (requests (exec_all safetyMargin st0 schedule) ++ [(b, rtb)])%list).
Proof.
  intros Hacc Hrt Hidle Hconc Hsome.
  assert (Hstart : in_flight [] st0).
  { split; try assumption; [now rewrite app_nil_r|reflexivity]. }
  pose proof (calls_run schedule [] st0 Hrt Hconc Hstart) as [Hacc' Hin Hreq Hdel].
  cbn [app] in *.
  assert (Hhandle : inflight (exec_all safetyMargin st0 schedule) !! a
                    = Some (callers_of a schedule)).
  { rewrite Hin. now destruct (callers_of a schedule). }
  assert (Hone : requests_for a (exec_all safetyMargin st0 schedule)
                 = (requests_for a st0 ++ [(a, rt)])%list).
  { rewrite Hreq. now destruct (callers_of a schedule). }
  unfold exec_all in *. rewrite !fold_left_app. cbn [fold_left exec].
  split; [|split; [|split]].
  - unfold settle. now rewrite Hhandle.
  - unfold settle. rewrite Hhandle. unfold delivered_for at 1. cbn.
    rewrite omap_app, delivered_to_waiters.
    fold (delivered_for a (fold_left (exec safetyMargin) schedule st0)).
    now rewrite Hdel.
  - unfold settle. rewrite Hhandle. cbn. apply lookup_delete_eq.
  - intros b accb rtb c now Hb Haccb Hrtb Hexp Hidleb.
    rewrite fold_left_app. cbn [fold_left exec].
    unfold getValidAccessToken. rewrite Haccb, Hrtb, Hexp, Hidleb. cbn.
    rewrite lookup_insert_ne by exact Hb. rewrite lookup_insert_eq.
    now rewrite Hhandle.
Qed.

End SingleFlight.

(** C4 on three concurrent callers for one account, with a call for a
    second account in between: one refresh request, and the three callers
    get the refreshed token. *)
Lemma single_flight_refresh_witness :
  TokenManager.requests_for "alice"
    (TokenManager.exec_all 60000 Double.store
       (Double.schedule ++
        [TokenManager.RefreshSettles "alice" (Returned Double.refreshed)]))
    = [("alice", "refresh-1")] /\
  TokenManager.delivered_for "alice"
    (TokenManager.exec_all 60000 Double.store
       (Double.schedule ++
        [TokenManager.RefreshSettles "alice" (Returned Double.refreshed)]))
    = [(1%nat, Returned "fresh"); (3%nat, Returned "fresh");
       (4%nat, Returned "fresh")].
Proof.
  assert (Hconc : TokenManager.concurrent_calls 60000 "alice" Double.expired
                    Double.schedule)
    by (repeat constructor; intros; reflexivity).
  assert (Hsome : TokenManager.callers_of "alice" Double.schedule <> [])
    by (intros H; vm_compute in H; discriminate H).
  destruct (single_flight_refresh 60000 "alice" Double.expired "refresh-1"
              Double.store Double.schedule Double.refreshed
              (lookup_insert_eq _ _ _) eq_refl (lookup_empty _) Hconc Hsome)
    as (Hreq & Hdel & _).
  split; [exact Hreq|exact Hdel].
Defined.

(* ===================================================================== *)
(** ** More facts about the session store                                 *)
(* ===================================================================== *)

Section SessionLifecycle.

Import Sessions.

(** X1.  A session that was created reads back, at any time before its
    expiry, with the account name, verifier, mode and tier it was created
    with; its state is the one given when that is a non-empty string, and
    absent otherwise (an empty state is stored as NULL). *)
Theorem createSession_getSession_roundtrip (table table' : gmap string Row)
    id acct verif m t ttlMinutes st created now :
  createSession table id acct verif m t ttlMinutes st created = Returned table' ->
  now < created + ttl_or_default ttlMinutes * 60 * 1000 ->
  getSession table' id now =
    Some {| accountName := acct;
            verifier := verif;
            state := match st with
                     | Some s => if String.eqb s "" then None else Some s
                     | None => None
                     end;
            mode := m;
            tier := t |}.
Proof.
  intros Hcreate Hnow.
  apply createSession_row in Hcreate as [_ Hrow].
  rewrite (getSession_stored _ _ _ _ Hrow). cbn [expires_at].
  destruct (Z.gtb_spec (created + ttl_or_default ttlMinutes * 60 * 1000) now);
    [|lia].
  unfold session_of_row. cbn. f_equal. f_equal.
  destruct st as [s|]; [|reflexivity].
  unfold Js.or, Js.truthy, Js.nonempty. now destruct (String.eqb s "").
Qed.

(** X2.  Creating a session changes what is read under no other id. *)
Theorem createSession_keeps_other_sessions (table table' : gmap string Row)
    id id' acct verif m t ttlMinutes st created now :
  createSession table id acct verif m t ttlMinutes st created = Returned table' ->
  id' <> id ->
  getSession table' id' now = getSession table id' now.
Proof.
  unfold createSession. destruct (table !! id); [discriminate|].
  intros [= <-] Hne. unfold getSession. now rewrite lookup_insert_ne.
Qed.

(** X3.  After [deleteSession] the id reads as absent at every time, the
    other sessions read as before, and deleting again, or deleting an id
    that is not stored, changes nothing. *)
Theorem deleteSession_removes_only_that_session (table : gmap string Row) id now :
  getSession (deleteSession table id) id now = None /\
  (forall id', id' <> id ->
     getSession (deleteSession table id) id' now = getSession table id' now) /\
  deleteSession (deleteSession table id) id = deleteSession table id /\
  (table !! id = None -> deleteSession table id = table).
Proof.
  unfold deleteSession, getSession. repeat split.
  - now rewrite lookup_delete_eq.
  - intros id' Hne. now rewrite lookup_delete_ne.
  - apply delete_delete_eq.
  - apply delete_id.
Qed.

(** X4.  The sweep keeps exactly the rows that are not yet expired
    ([now < expires_at]), and the number it returns is the number of rows
    it removed. *)
Theorem cleanupExpiredSessions_removes_expired (table : gmap string Row) now :
  (forall id row,
     (cleanupExpiredSessions table now).1 !! id = Some row
     <-> table !! id = Some row /\ now < expires_at row) /\
  size table =
    (size (cleanupExpiredSessions table now).1
     + (cleanupExpiredSessions table now).2)%nat.
Proof.
  unfold cleanupExpiredSessions. cbn [fst snd]. split.
  - intros id row. now rewrite map_lookup_filter_Some.
  - rewrite <- (map_filter_union_complement
                  (fun kv : string * Row => now < expires_at kv.2) table) at 1.
    rewrite map_size_disj_union by apply map_disjoint_filter_complement.
    f_equal. f_equal. apply map_filter_ext. intros i x _. cbn. lia.
Qed.

(** X5.  A sweep at time [now] is invisible to every read made at [now]
    or later: what it removed could not be read any more.  A second sweep
    at the same time removes nothing. *)
Theorem cleanupExpiredSessions_invisible (table : gmap string Row) id now t :
  now <= t ->
  getSession (cleanupExpiredSessions table now).1 id t = getSession table id t /\
  cleanupExpiredSessions (cleanupExpiredSessions table now).1 now
    = ((cleanupExpiredSessions table now).1, 0%nat).
Proof.
  intros Hlater. unfold cleanupExpiredSessions. cbn [fst snd]. split.
  - unfold getSession. rewrite map_lookup_filter.
    destruct (table !! id) as [row|]; [|reflexivity]. cbn.
    destruct (expires_at row >? t)%Z eqn:Hread.
    + rewrite option_guard_True by lia. cbn. now rewrite Hread.
    + destruct (guard _); cbn; now rewrite ?Hread.
  - f_equal.
    + apply map_filter_id. intros i x Hx.
      now apply map_lookup_filter_Some in Hx as [_ Hx].
    + apply map_size_empty_iff, map_eq. intros i.
      rewrite lookup_empty, map_lookup_filter_None. right. intros x Hx.
      apply map_lookup_filter_Some in Hx as [_ Hx]. cbn in *. lia.
Qed.

End SessionLifecycle.

(* ===================================================================== *)
(** ** More facts about the code exchange                                 *)
(* ===================================================================== *)

Lemma before_first_hash_has_none (s : string) :
  Js.includes "#" (OAuth.before_first_hash s) = false.
Proof.
  induction s as [|c s IH]; [reflexivity|]. cbn [OAuth.before_first_hash].
  destruct (Ascii.eqb c hash) eqn:Hc; [reflexivity|].
  now rewrite includes_hash_cons, Hc.
Qed.

Lemma before_composite (c s : string) :
  Js.includes "#" c = false ->
  OAuth.before_first_hash (c ++ "#" ++ s) = c /\
  OAuth.after_first_hash (c ++ "#" ++ s) = s /\
  Js.includes "#" (c ++ "#" ++ s) = true.
Proof.
  induction c as [|x c IH].
  { intros _. change ("" ++ "#" ++ s) with (String hash s).
    now rewrite includes_hash_cons. }
  change (String x c ++ "#" ++ s) with (String x (c ++ "#" ++ s)).
  rewrite !includes_hash_cons. cbn [OAuth.before_first_hash OAuth.after_first_hash].
  destruct (Ascii.eqb x hash); cbn [orb]; [discriminate|].
  intros H. destruct (IH H) as (-> & -> & ->). now repeat split.
Qed.

Section ExchangeCodeEdges.

Import OAuth.

Variable fetch : string -> RequestInit -> outcome thrown Response.
Variable JSON_parse : string -> outcome thrown json_value.

(** X6.  A composite code built from a code and a state that hold no [#]
    is taken apart into exactly these two: without a [stateParam], the
    token request carries that code and that state. *)
Theorem split_code_roundtrip c s v config :
  Js.includes "#" c = false ->
  Js.includes "#" s = false ->
  split_code (c ++ "#" ++ s) = (c, s) /\
  field "code" (requestBody (c ++ "#" ++ s) v config None) = Some c /\
  field "state" (requestBody (c ++ "#" ++ s) v config None) = Some s.
Proof.
  intros Hc Hs. destruct (before_composite c s Hc) as (Hbefore & Hafter & _).
  assert (Hcode : authCode (c ++ "#" ++ s) = c)
    by now rewrite authCode_before.
  assert (Hstate : extractedState (c ++ "#" ++ s) = s)
    by now rewrite extractedState_between, Hafter, no_hash_before.
  split; [|split].
  - rewrite (surjective_pairing (split_code _)). fold (authCode (c ++ "#" ++ s)).
    fold (extractedState (c ++ "#" ++ s)). now rewrite Hcode, Hstate.
  - cbn. now rewrite Hcode.
  - cbn. unfold finalState. cbn. now rewrite Hstate.
Qed.

(** X7.  Whatever the input, the code sent to the token endpoint holds no
    [#], and neither does the fallback state. *)
Theorem exchangeCode_sends_no_hash code v config stateParam :
  (exists sent,
     field "code" (body (tokenRequest code v config stateParam)) = Some sent /\
     Js.includes "#" sent = false) /\
  Js.includes "#" (extractedState code) = false.
Proof.
  split.
  - exists (authCode code). split; [reflexivity|].
    rewrite authCode_before. apply before_first_hash_has_none.
  - rewrite extractedState_between. apply before_first_hash_has_none.
Qed.

(** X8.  An exception of [fetch], or of [response.json()] on a success
    response, leaves the exchange as it is, not wrapped in an
    [OAuthError]; an [OAuthError] is thrown only for a response that was
    received and is not a success, and always names "anthropic". *)
Theorem exchangeCode_transport_errors_pass code v config stateParam now :
  (forall e,
     fetch (tokenUrl config) (tokenRequest code v config stateParam) = Thrown e ->
     result (exchangeCode fetch JSON_parse code v config stateParam now)
       = Thrown (Rejected e)) /\
  (forall r e,
     fetch (tokenUrl config) (tokenRequest code v config stateParam) = Returned r ->
     ok r = true ->
     json r = Thrown e ->
     result (exchangeCode fetch JSON_parse code v config stateParam now)
       = Thrown (Rejected e)) /\
  (forall message provider errorCode,
     result (exchangeCode fetch JSON_parse code v config stateParam now)
       = Thrown (OAuthError message provider errorCode) ->
     provider = "anthropic" /\
     exists r,
       fetch (tokenUrl config) (tokenRequest code v config stateParam) = Returned r /\
       ok r = false).
Proof.
  unfold exchangeCode. repeat split.
  - intros e ->. reflexivity.
  - intros r e -> Hok Hjson. cbn. rewrite Hok. cbn. now rewrite Hjson.
  - destruct (fetch _ _) as [r|]; [|discriminate]. cbn in *.
    destruct (ok r); cbn in *; [destruct (json r); discriminate|].
    unfold read_error_details in H.
    destruct (text r) as [t|]; cbn in H; [destruct (JSON_parse t)|];
      cbn in H; congruence.
  - destruct (fetch _ _) as [r|]; [|discriminate]. cbn in *.
    destruct (ok r) eqn:Hok; cbn in *; [destruct (json r); discriminate|].
    now exists r.
Qed.

(** X9.  A token result is returned only for a response with a status
    from 200 to 299 whose body could be read as the token payload, and it
    is then computed from that payload. *)
Theorem exchangeCode_returns_only_on_success code v config stateParam now tr :
  result (exchangeCode fetch JSON_parse code v config stateParam now)
    = Returned tr ->
  exists r payload,
    fetch (tokenUrl config) (tokenRequest code v config stateParam) = Returned r /\
    200 <= status r <= 299 /\
    json r = Returned payload /\
    tr = {| refreshToken := refresh_token payload;
            accessToken := access_token payload;
            expiresAt := now + expires_in payload * 1000 |}.
Proof.
  unfold exchangeCode.
  destruct (fetch _ _) as [r|]; [|discriminate]. cbn.
  destruct (ok r) eqn:Hok; cbn.
  - destruct (json r) as [payload|] eqn:Hjson; cbn; [|discriminate].
    intros [= <-]. exists r, payload. unfold ok in Hok.
    apply andb_true_iff in Hok as [Hlo Hhi].
    apply Z.leb_le in Hlo, Hhi. repeat split; auto.
  - unfold read_error_details.
    destruct (text r) as [t|]; cbn; [destruct (JSON_parse t)|]; discriminate.
Qed.

(** X10.  Every exchange, however it ends, writes the whole request body
    to the console just before it sends the request: the authorization
    code and the PKCE verifier are in that log line. *)
Theorem exchangeCode_logs_request_body code v config stateParam now :
  exists before after,
    trace (exchangeCode fetch JSON_parse code v config stateParam now)
    = (before ++
       ConsoleLog "OAuth request body:"
         [("", LObj (requestBody code v config stateParam))] ::
       Fetch (tokenUrl config) (tokenRequest code v config stateParam) ::
       after)%list /\
    field "code_verifier" (requestBody code v config stateParam) = Some v /\
    field "code" (requestBody code v config stateParam) = Some (authCode code).
Proof.
  unfold exchangeCode.
  eexists [_].
  destruct (fetch _ _) as [r|]; cbn.
  - destruct (ok r); cbn.
    + destruct (json r); cbn; eexists; repeat split; reflexivity.
    + unfold read_error_details.
      destruct (text r) as [t|]; cbn; [destruct (JSON_parse t)|]; cbn;
        eexists; repeat split; reflexivity.
  - eexists. repeat split; reflexivity.
Qed.

End ExchangeCodeEdges.

(* ===================================================================== *)
(** ** Facts about the authorization URL                                  *)
(* ===================================================================== *)

Lemma getAll_without_eq name (l : list (string * string)) :
  OAuth.getAll name (OAuth.without name l) = [].
Proof.
  induction l as [|[k v] l IH]; [reflexivity|].
  unfold OAuth.getAll, OAuth.without in *. cbn.
  destruct (String.eqb_spec k name) as [->|Hne]; cbn; [exact IH|].
  destruct (String.eqb_spec k name); [congruence|exact IH].
Qed.

Lemma getAll_without_ne k name (l : list (string * string)) :
  k <> name -> OAuth.getAll k (OAuth.without name l) = OAuth.getAll k l.
Proof.
  intros Hk. induction l as [|[k' v] l IH]; [reflexivity|].
  unfold OAuth.getAll, OAuth.without in *. cbn.
  destruct (String.eqb_spec k' name) as [->|Hne]; cbn.
  - destruct (String.eqb_spec name k); [congruence|exact IH].
  - destruct (String.eqb_spec k' k); cbn; now rewrite IH.
Qed.

Lemma getAll_set_eq name v (l : list (string * string)) :
  OAuth.getAll name (OAuth.searchParams_set name v l) = [v].
Proof.
  induction l as [|[k' v'] l IH].
  - unfold OAuth.getAll. cbn. now rewrite String.eqb_refl.
  - cbn [OAuth.searchParams_set].
    destruct (String.eqb_spec k' name) as [->|Hne].
    + change (OAuth.getAll name ((name, v) :: OAuth.without name l))
        with (map snd (if String.eqb name name
                       then (name, v) :: List.filter
                              (fun kv => String.eqb (fst kv) name)
                              (OAuth.without name l)
                       else List.filter
                              (fun kv => String.eqb (fst kv) name)
                              (OAuth.without name l))).
      rewrite String.eqb_refl. cbn. f_equal. apply getAll_without_eq.
    + unfold OAuth.getAll in *. cbn.
      destruct (String.eqb_spec k' name); [congruence|exact IH].
Qed.

Lemma getAll_set_ne k name v (l : list (string * string)) :
  k <> name ->
  OAuth.getAll k (OAuth.searchParams_set name v l) = OAuth.getAll k l.
Proof.
  intros Hk. induction l as [|[k' v'] l IH].
  - unfold OAuth.getAll. cbn.
    now destruct (String.eqb_spec name k); [congruence|].
  - cbn [OAuth.searchParams_set].
    destruct (String.eqb_spec k' name) as [->|Hne].
    + pose proof (getAll_without_ne k name l Hk) as Hrest.
      unfold OAuth.getAll in *. cbn.
      destruct (String.eqb_spec name k); [congruence|exact Hrest].
    + unfold OAuth.getAll in *. cbn.
      destruct (String.eqb_spec k' k); cbn; now rewrite IH.
Qed.

Lemma remove_hyphens_has_none (s : string) :
  Js.includes "-" (OAuth.remove_hyphens s) = false.
Proof.
  induction s as [|c s IH]; [reflexivity|]. cbn [OAuth.remove_hyphens].
  destruct (Ascii.eqb c "-") eqn:Hc; [exact IH|].
  change (Js.includes "-" (String c (OAuth.remove_hyphens s)))
    with (if String.prefix "-" (String c (OAuth.remove_hyphens s))
          then true else Js.includes "-" (OAuth.remove_hyphens s)).
  rewrite IH. cbn [String.prefix].
  destruct (ascii_dec "-" c) as [<-|]; [discriminate Hc|reflexivity].
Qed.

Section AuthorizationUrl.

Import OAuth.

Variable URL_parse : string -> outcome thrown Url.
Variable URL_toString : Url -> string.

(** X11.  When the authorize URL parses, the URL that is built differs
    from it only in its query, where each of the eight parameters occurs
    exactly once with the value the function sets, whatever the query
    held before; parameters of other names keep their values.  The
    [state] parameter is the state that is returned. *)
Theorem generateAuthUrl_sets_each_parameter_once config pkce uuid url :
  URL_parse (authorizeUrl config) = Returned url ->
  exists built state,
    generateAuthUrl URL_parse URL_toString config pkce uuid
      = Returned (URL_toString built, state) /\
    before_query built = before_query url /\
    fragment built = fragment url /\
    getAll "code" (searchParams built) = ["true"] /\
    getAll "client_id" (searchParams built) = [clientId config] /\
    getAll "response_type" (searchParams built) = ["code"] /\
    getAll "redirect_uri" (searchParams built) = [redirectUri config] /\
    getAll "scope" (searchParams built) = [String.concat " " (scopes config)] /\
    getAll "code_challenge" (searchParams built) = [challenge pkce] /\
    getAll "code_challenge_method" (searchParams built) = ["S256"] /\
    getAll "state" (searchParams built) = [state] /\
    (forall k,
       ~ In k ["code"; "client_id"; "response_type"; "redirect_uri"; "scope";
               "code_challenge"; "code_challenge_method"; "state"] ->
       getAll k (searchParams built) = getAll k (searchParams url)).
Proof.
  intros Hparse. unfold generateAuthUrl. rewrite Hparse.
  eexists _, _. split; [reflexivity|].
  cbn [before_query fragment searchParams]. unfold authorization_params.
  do 2 (split; [reflexivity|]).
  repeat (split; [rewrite ?getAll_set_ne by discriminate; apply getAll_set_eq|]).
  intros k Hk.
  rewrite !getAll_set_ne; [reflexivity|..]; intros ->; apply Hk; cbn; tauto.
Qed.

(** X12.  The state that is returned is the drawn UUID without its
    hyphens and holds no hyphen; the PKCE verifier has no part in the
    result; and an authorize URL that does not parse makes the function
    throw what [new URL] throws. *)
Theorem generateAuthUrl_state_and_verifier config pkce uuid :
  (forall text state,
     generateAuthUrl URL_parse URL_toString config pkce uuid
       = Returned (text, state) ->
     state = remove_hyphens uuid /\ Js.includes "-" state = false) /\
  (forall other,
     generateAuthUrl URL_parse URL_toString config
       {| verifier := other; challenge := challenge pkce |} uuid
     = generateAuthUrl URL_parse URL_toString config pkce uuid) /\
  (forall e,
     URL_parse (authorizeUrl config) = Thrown e ->
     generateAuthUrl URL_parse URL_toString config pkce uuid = Thrown e).
Proof.
  unfold generateAuthUrl. split; [|split].
  - intros text state Hresult.
    destruct (URL_parse _); [|discriminate].
    injection Hresult as _ <-. split; [reflexivity|].
    apply remove_hyphens_has_none.
  - reflexivity.
  - now intros e ->.
Qed.

End AuthorizationUrl.

(* ===================================================================== *)
(** ** More facts about the proxy operations                              *)
(* ===================================================================== *)

Section ProxyEdges.

Import Proxy.

Variable ERROR_MESSAGES : ErrorMessages.
Variable makeProxyRequest :
  string -> string -> Headers -> BodyStreamFactory -> bool ->
  outcome thrown Response.
Variable getValidAccessToken : Account -> ProxyContext -> outcome thrown string.
Variable processProxyResponse :
  Response -> Account -> ProxyContext -> outcome thrown bool.
Variable forwardToClient :
  ForwardRecord -> ProxyContext -> outcome thrown (outcome thrown Response).

Variables (req : Request) (url : URL) (requestMeta : RequestMeta)
  (requestBodyBuffer : option string) (createBodyStream : BodyStreamFactory)
  (ctx : ProxyContext).

Local Abbreviation withAccount flag acct failovers :=
  (proxyWithAccount flag makeProxyRequest getValidAccessToken
     processProxyResponse forwardToClient req url acct requestMeta
     requestBodyBuffer createBodyStream failovers ctx).
Local Abbreviation send acct :=
  (upstream_send makeProxyRequest getValidAccessToken req url acct
     createBodyStream ctx).
Local Abbreviation record acct failovers resp :=
  (forward_record (Some acct) failovers req url requestMeta
     requestBodyBuffer resp).
Local Abbreviation unauthenticated flag :=
  (proxyUnauthenticated ERROR_MESSAGES flag makeProxyRequest
     forwardToClient req url requestMeta requestBodyBuffer createBodyStream ctx).
Local Abbreviation bare_record resp :=
  (forward_record None 0 req url requestMeta requestBodyBuffer resp).

Lemma in_calls (ev : event) (t : list event) :
  is_log ev = false -> In ev t -> In ev (calls t).
Proof.
  intros Hev Hin. apply List.filter_In. split; [exact Hin|]. now rewrite Hev.
Qed.

(** How an attempt with an account ends, in terms of what the
    collaborators answer. *)
Lemma proxyWithAccount_outcome flag acct failovers :
  result (withAccount flag acct failovers) =
    match send acct with
    | Thrown _ => Returned None
    | Returned resp =>
        match processProxyResponse resp acct ctx with
        | Thrown _ | Returned true => Returned None
        | Returned false =>
            match forwardToClient (record acct failovers resp) ctx with
            | Thrown _ => Returned None
            | Returned (Returned r) => Returned (Some r)
            | Returned (Thrown e) => Thrown e
            end
        end
    end.
Proof.
  rewrite proxyWithAccount_result, account_attempt_result.
  destruct (send acct) as [resp|]; [|reflexivity].
  destruct (processProxyResponse resp acct ctx) as [[|]|]; try reflexivity.
  now destruct (forwardToClient _ _) as [[|]|].
Qed.

(** X13.  An attempt with an account throws in one case only: the
    upstream answered, the answer was not classified as rate-limited, and
    the promise returned by [forwardToClient] rejected; what it throws is
    then that rejection. *)
Theorem proxyWithAccount_throws_iff flag acct failovers e :
  result (withAccount flag acct failovers) = Thrown e
  <-> exists resp,
        send acct = Returned resp /\
        processProxyResponse resp acct ctx = Returned false /\
        forwardToClient (record acct failovers resp) ctx = Returned (Thrown e).
Proof.
  rewrite proxyWithAccount_outcome. split.
  - destruct (send acct) as [resp|]; [|discriminate].
    destruct (processProxyResponse resp acct ctx) as [[|]|] eqn:Hclass;
      try discriminate.
    destruct (forwardToClient _ _) as [[|]|] eqn:Hfwd; try discriminate.
    intros [= ->]. now exists resp.
  - intros (resp & -> & -> & ->). reflexivity.
Qed.

(** The calls of a whole attempt with an account. *)
Lemma proxyWithAccount_all_calls flag acct failovers :
  calls (trace (withAccount flag acct failovers)) =
    GetValidAccessToken acct ::
    match getValidAccessToken acct ctx with
    | Thrown e => [HandleProxyError e acct]
    | Returned tok =>
        PrepareHeaders (req_headers req) (Some tok) (Js.or (api_key acct) None) ::
        match prepareHeaders (provider ctx) (req_headers req) (Some tok)
                (Js.or (api_key acct) None) with
        | Thrown e => [HandleProxyError e acct]
        | Returned h =>
            BuildUrl (pathname url) (search url) ::
            match buildUrl (provider ctx) (pathname url) (search url) with
            | Thrown e => [HandleProxyError e acct]
            | Returned u =>
                MakeProxyRequest u (req_method req) h (req_has_body req) ::
                match makeProxyRequest u (req_method req) h createBodyStream
                        (req_has_body req) with
                | Thrown e => [HandleProxyError e acct]
                | Returned resp =>
                    ProcessProxyResponse resp acct ::
                    match processProxyResponse resp acct ctx with
                    | Thrown e => [HandleProxyError e acct]
                    | Returned true => []
                    | Returned false =>
                        ForwardToClient (record acct failovers resp) ::
                        match forwardToClient (record acct failovers resp) ctx with
                        | Thrown e => [HandleProxyError e acct]
                        | Returned _ => []
                        end
                    end
                end
            end
        end
    end.
Proof.
  rewrite proxyWithAccount_calls, account_attempt_calls, account_attempt_result.
  unfold upstream_send.
  destruct (getValidAccessToken acct ctx) as [tok|]; [|reflexivity].
  destruct (prepareHeaders _ _ _ _) as [h|]; [|reflexivity].
  destruct (buildUrl _ _ _) as [u|]; [|reflexivity].
  destruct (makeProxyRequest _ _ _ _ _) as [resp|]; [|reflexivity].
  destruct (processProxyResponse _ _ _) as [[|]|]; try reflexivity.
  now destruct (forwardToClient _ _).
Qed.

Ltac walk_calls :=
  rewrite proxyWithAccount_all_calls; unfold upstream_send;
  destruct (getValidAccessToken _ _) as [?tok|?e] eqn:?Htok;
    [destruct (prepareHeaders _ _ _ _) as [?h|?e] eqn:?Hhdr;
       [destruct (buildUrl _ _ _) as [?u|?e] eqn:?Hurl;
          [destruct (makeProxyRequest _ _ _ _ _) as [?resp|?e] eqn:?Hsent;
             [destruct (processProxyResponse _ _ _) as [[|]|?e] eqn:?Hclass;
                [| destruct (forwardToClient _ _) as [?p|?e] eqn:?Hfwd |]|]|]|]|].

(** X14.  An attempt with an account sends at most one upstream request
    and hands at most one record to [forwardToClient]; it does so only
    for a response the upstream gave and the inspector did not classify
    as rate-limited, and the record is then the one of this account, this
    response and the failover count passed in. *)
Theorem proxyWithAccount_at_most_one_request flag acct failovers :
  (length (upstream_attempts (trace (withAccount flag acct failovers))) <= 1)%nat /\
  (forall rec,
     In (ForwardToClient rec) (trace (withAccount flag acct failovers)) ->
     exists resp,
       send acct = Returned resp /\
       processProxyResponse resp acct ctx = Returned false /\
       rec = record acct failovers resp /\
       account rec = Some acct /\
       response rec = resp /\
       failoverAttempts rec = failovers /\
       retryAttempt rec = 0 /\
       requestId rec = id requestMeta /\
       method rec = req_method req /\
       path rec = pathname url /\
       requestHeaders rec = req_headers req /\
       requestBody rec = requestBodyBuffer /\
       fwd_timestamp rec = timestamp requestMeta /\
       fwd_agentUsed rec = agentUsed requestMeta) /\
  (length (List.filter (fun ev => match ev with
                                  | ForwardToClient _ => true
                                  | _ => false
                                  end)
             (trace (withAccount flag acct failovers))) <= 1)%nat.
Proof.
  split; [|split].
  - rewrite <- upstream_attempts_calls. walk_calls; cbn; lia.
  - intros rec Hin. apply in_calls in Hin; [|reflexivity]. revert Hin.
    walk_calls; cbn; intros Hin;
      repeat match goal with
             | H : _ \/ _ |- _ => destruct H as [H|H]
             | H : False |- _ => destruct H
             end;
      try discriminate.
    + injection Hin as <-. exists resp. now repeat split.
    + injection Hin as <-. exists resp. now repeat split.
  - assert (Hcalls : forall t,
              List.filter (fun ev => match ev with
                                     | ForwardToClient _ => true
                                     | _ => false
                                     end) t
              = List.filter (fun ev => match ev with
                                       | ForwardToClient _ => true
                                       | _ => false
                                       end) (calls t)).
    { induction t as [|ev t IH]; [reflexivity|].
      destruct ev; cbn; try exact IH. f_equal. exact IH. }
    rewrite Hcalls. walk_calls; cbn; lia.
Qed.

(** X15.  The debug-traffic toggle only adds log lines: how an attempt
    ends and which calls it makes do not depend on it, with an account or
    without. *)
Theorem debug_traffic_is_observational flag flag' acct failovers :
  result (withAccount flag acct failovers)
    = result (withAccount flag' acct failovers) /\
  calls (trace (withAccount flag acct failovers))
    = calls (trace (withAccount flag' acct failovers)) /\
  result (unauthenticated flag) = result (unauthenticated flag') /\
  calls (trace (unauthenticated flag)) = calls (trace (unauthenticated flag')).
Proof.
  split; [now rewrite !proxyWithAccount_outcome|].
  split; [now rewrite !proxyWithAccount_all_calls|].
  destruct (buildUrl (provider ctx) (pathname url) (search url)) as [u|e] eqn:Hurl.
  - destruct (prepareHeaders (provider ctx) (req_headers req) None None)
      as [h|e] eqn:Hhdr.
    + rewrite !(proxyUnauthenticated_result _ _ _ _ _ _ _ _ _ _ u h Hurl Hhdr),
        !(proxyUnauthenticated_calls _ _ _ _ _ _ _ _ _ _ u h Hurl Hhdr),
        !unauthenticated_attempt_result, !unauthenticated_attempt_calls.
      now split.
    + destruct (proxyUnauthenticated_provider_throws ERROR_MESSAGES flag
                  makeProxyRequest forwardToClient req url requestMeta
                  requestBodyBuffer createBodyStream ctx u e Hurl Hhdr)
        as [-> _].
      destruct (proxyUnauthenticated_provider_throws ERROR_MESSAGES flag'
                  makeProxyRequest forwardToClient req url requestMeta
                  requestBodyBuffer createBodyStream ctx u e Hurl Hhdr)
        as [-> _].
      split; [reflexivity|].
      unfold proxyUnauthenticated.
      rewrite !calls_after_silent by auto with silent.
      rewrite !calls_bind, !trace_lift_exn, !result_lift_exn, Hurl.
      cbn [call result snd].
      now rewrite !calls_bind, !trace_lift_exn, !result_lift_exn, Hhdr.
  - unfold proxyUnauthenticated.
    rewrite !result_after_silent, !calls_after_silent by auto with silent.
    now rewrite !result_bind, !calls_bind, !trace_lift_exn, !result_lift_exn, Hurl.
Qed.

(** How the unauthenticated fallback ends, in terms of what the
    collaborators answer. *)
Lemma proxyUnauthenticated_outcome flag :
  result (unauthenticated flag) =
    match buildUrl (provider ctx) (pathname url) (search url) with
    | Thrown e => Thrown (Uncaught e)
    | Returned u =>
        match prepareHeaders (provider ctx) (req_headers req) None None with
        | Thrown e => Thrown (Uncaught e)
        | Returned h =>
            match makeProxyRequest u (req_method req) h createBodyStream
                    (req_has_body req) with
            | Thrown e =>
                Thrown (ProviderError (UNAUTHENTICATED_FAILED ERROR_MESSAGES)
                          (provider_name (provider ctx)) 502 (error_detail e))
            | Returned resp =>
                match forwardToClient (bare_record resp) ctx with
                | Thrown e =>
                    Thrown (ProviderError (UNAUTHENTICATED_FAILED ERROR_MESSAGES)
                              (provider_name (provider ctx)) 502 (error_detail e))
                | Returned (Returned r) => Returned (Some r)
                | Returned (Thrown e) => Thrown (Uncaught e)
                end
            end
        end
    end.
Proof.
  destruct (buildUrl (provider ctx) (pathname url) (search url)) as [u|e] eqn:Hurl.
  - destruct (prepareHeaders (provider ctx) (req_headers req) None None)
      as [h|e] eqn:Hhdr.
    + rewrite (proxyUnauthenticated_result _ _ _ _ _ _ _ _ _ _ u h Hurl Hhdr),
        unauthenticated_attempt_result.
      destruct (makeProxyRequest _ _ _ _ _) as [resp|]; [|reflexivity].
      now destruct (forwardToClient _ _) as [[|]|].
    + now destruct (proxyUnauthenticated_provider_throws ERROR_MESSAGES flag
                      makeProxyRequest forwardToClient req url requestMeta
                      requestBodyBuffer createBodyStream ctx u e Hurl Hhdr).
  - unfold proxyUnauthenticated.
    rewrite result_after_silent by auto with silent.
    now rewrite result_bind, result_lift_exn, Hurl.
Qed.

(** The calls of the unauthenticated fallback. *)
Lemma proxyUnauthenticated_all_calls flag :
  calls (trace (unauthenticated flag)) =
    BuildUrl (pathname url) (search url) ::
    match buildUrl (provider ctx) (pathname url) (search url) with
    | Thrown _ => []
    | Returned u =>
        PrepareHeaders (req_headers req) None None ::
        match prepareHeaders (provider ctx) (req_headers req) None None with
        | Thrown _ => []
        | Returned h =>
            MakeProxyRequest u (req_method req) h (req_has_body req) ::
            match makeProxyRequest u (req_method req) h createBodyStream
                    (req_has_body req) with
            | Thrown e => [LogError e]
            | Returned resp =>
                ForwardToClient (bare_record resp) ::
                match forwardToClient (bare_record resp) ctx with
                | Thrown e => [LogError e]
                | Returned _ => []
                end
            end
        end
    end.
Proof.
  destruct (buildUrl (provider ctx) (pathname url) (search url)) as [u|e] eqn:Hurl.
  - destruct (prepareHeaders (provider ctx) (req_headers req) None None)
      as [h|e] eqn:Hhdr.
    + rewrite (proxyUnauthenticated_calls _ _ _ _ _ _ _ _ _ _ u h Hurl Hhdr),
        unauthenticated_attempt_result, unauthenticated_attempt_calls.
      destruct (makeProxyRequest _ _ _ _ _) as [resp|]; [|reflexivity].
      now destruct (forwardToClient _ _).
    + unfold proxyUnauthenticated.
      rewrite calls_after_silent by auto with silent.
      rewrite calls_bind, trace_lift_exn, result_lift_exn, Hurl.
      cbn [call result snd].
      now rewrite calls_bind, trace_lift_exn, result_lift_exn, Hhdr.
  - unfold proxyUnauthenticated.
    rewrite calls_after_silent by auto with silent.
    now rewrite calls_bind, trace_lift_exn, result_lift_exn, Hurl.
Qed.

Ltac walk_bare_calls :=
  rewrite proxyUnauthenticated_all_calls;
  destruct (buildUrl _ _ _) as [?u|?e] eqn:?Hurl;
    [destruct (prepareHeaders _ _ _ _) as [?h|?e] eqn:?Hhdr;
       [destruct (makeProxyRequest _ _ _ _ _) as [?resp|?e] eqn:?Hsent;
          [destruct (forwardToClient _ _) as [?p|?e] eqn:?Hfwd|]|]|].

Ltac split_cases :=
  repeat match goal with
         | H : _ \/ _ |- _ => destruct H as [H|H]
         | H : False |- _ => destruct H
         end.

(** X16.  Whatever the collaborators do, a [ProviderError] thrown by the
    unauthenticated fallback has status 502, the text
    [UNAUTHENTICATED_FAILED] and the provider's name, and its detail is
    that of an error that was passed to [logError]; and the fallback
    never returns [null]. *)
Theorem proxyUnauthenticated_errors flag :
  (forall message name status detail,
     result (unauthenticated flag)
       = Thrown (ProviderError message name status detail) ->
     status = 502 /\
     message = UNAUTHENTICATED_FAILED ERROR_MESSAGES /\
     name = provider_name (provider ctx) /\
     exists e,
       detail = error_detail e /\ In (LogError e) (trace (unauthenticated flag))) /\
  result (unauthenticated flag) <> Returned None.
Proof.
  split.
  - intros message name status detail.
    assert (Hlogged : forall e,
              In (LogError e) (calls (trace (unauthenticated flag))) ->
              In (LogError e) (trace (unauthenticated flag))).
    { intros e Hin. now apply List.filter_In in Hin as [Hin _]. }
    rewrite proxyUnauthenticated_outcome. intros Hthrown.
    assert (exists e,
              detail = error_detail e /\
              In (LogError e) (calls (trace (unauthenticated flag)))
              /\ status = 502 /\ message = UNAUTHENTICATED_FAILED ERROR_MESSAGES
              /\ name = provider_name (provider ctx))
      as (e & -> & Hin & -> & -> & ->).
    { revert Hthrown. walk_bare_calls; try discriminate.
      - destruct p; discriminate.
      - intros [= <- <- <- <-]. exists e. cbn. tauto.
      - intros [= <- <- <- <-]. exists e. cbn. tauto. }
    repeat split. exists e. split; [reflexivity|]. now apply Hlogged.
  - rewrite proxyUnauthenticated_outcome.
    destruct (buildUrl _ _ _); [|discriminate].
    destruct (prepareHeaders _ _ _ _); [|discriminate].
    destruct (makeProxyRequest _ _ _ _ _); [|discriminate].
    destruct (forwardToClient _ _) as [[|]|]; discriminate.
Qed.

(** X17.  Whatever the collaborators do, the unauthenticated fallback
    sends at most one upstream request, asks for headers only with
    neither access token nor API key, never has a response classified for
    rate limiting, and forwards only records without account and with
    zero retry and failover counts. *)
Theorem proxyUnauthenticated_carries_no_credentials flag :
  (length (upstream_attempts (trace (unauthenticated flag))) <= 1)%nat /\
  (forall h accessToken apiKey,
     In (PrepareHeaders h accessToken apiKey) (trace (unauthenticated flag)) ->
     h = req_headers req /\ accessToken = None /\ apiKey = None) /\
  (forall resp acct,
     ~ In (ProcessProxyResponse resp acct) (trace (unauthenticated flag))) /\
  (forall rec,
     In (ForwardToClient rec) (trace (unauthenticated flag)) ->
     account rec = None /\ retryAttempt rec = 0 /\ failoverAttempts rec = 0).
Proof.
  split; [|split; [|split]].
  - rewrite <- upstream_attempts_calls. walk_bare_calls; cbn; lia.
  - intros h tok key Hin. apply in_calls in Hin; [|reflexivity]. revert Hin.
    walk_bare_calls; cbn; intros Hin; split_cases; try discriminate;
      now injection Hin as <- <- <-.
  - intros resp acct Hin. apply in_calls in Hin; [|reflexivity]. revert Hin.
    walk_bare_calls; cbn; intros Hin; split_cases; discriminate.
  - intros rec Hin. apply in_calls in Hin; [|reflexivity]. revert Hin.
    walk_bare_calls; cbn; intros Hin; split_cases; try discriminate;
      now injection Hin as <-.
Qed.

(** X18.  When the token manager fails for the account, the attempt ends
    there: the error goes to [handleProxyError], the attempt returns
    [null], and neither the provider nor the upstream is called. *)
Theorem proxyWithAccount_token_failure flag acct failovers e :
  getValidAccessToken acct ctx = Thrown e ->
  result (withAccount flag acct failovers) = Returned None /\
  calls (trace (withAccount flag acct failovers))
    = [GetValidAccessToken acct; HandleProxyError e acct] /\
  upstream_attempts (trace (withAccount flag acct failovers)) = [].
Proof.
  intros Htok.
  rewrite <- upstream_attempts_calls, proxyWithAccount_outcome,
    proxyWithAccount_all_calls.
  unfold upstream_send. now rewrite Htok.
Qed.

(** X19.  In an attempt with an account, headers are prepared from the
    request's own headers with the token the token manager returned, and
    with the account's API key only when that is a non-empty string. *)
Theorem proxyWithAccount_credentials flag acct failovers h accessToken apiKey :
  In (PrepareHeaders h accessToken apiKey)
    (trace (withAccount flag acct failovers)) ->
  h = req_headers req /\
  (exists token,
     getValidAccessToken acct ctx = Returned token /\ accessToken = Some token) /\
  apiKey = match api_key acct with
           | Some key => if String.eqb key "" then None else Some key
           | None => None
           end.
Proof.
  intros Hin. apply in_calls in Hin; [|reflexivity]. revert Hin.
  assert (Hkey : Js.or (api_key acct) None
                 = match api_key acct with
                   | Some key => if String.eqb key "" then None else Some key
                   | None => None
                   end).
  { unfold Js.or, Js.truthy, Js.nonempty.
    destruct (api_key acct) as [key|]; [|reflexivity].
    now destruct (String.eqb key ""). }
  walk_calls; cbn; intros Hin; split_cases; try discriminate;
    injection Hin as <- <- <-; eauto.
Qed.

(** C2 (as amended).  The unauthenticated fallback first has the provider
    build the URL and the headers, the latter with neither access token
    nor API key; an exception of either call is thrown as it is, and no
    upstream request is made.  Otherwise it makes exactly one upstream
    request, with these headers, and hands the response to
    [forwardToClient] in a record without account; what the promise of
    that call yields is returned, and its rejection is thrown as it is.  A
    [ProviderError] is thrown if and only if the upstream request or the
    call of [forwardToClient] throws; it has status 502 and carries the
    detail of that error. *)
Theorem proxyUnauthenticated_outcomes flag :
  (forall e,
     buildUrl (provider ctx) (pathname url) (search url) = Thrown e ->
     result (unauthenticated flag) = Thrown (Uncaught e) /\
     upstream_attempts (trace (unauthenticated flag)) = []) /\
  (forall u e,
     buildUrl (provider ctx) (pathname url) (search url) = Returned u ->
     prepareHeaders (provider ctx) (req_headers req) None None = Thrown e ->
     result (unauthenticated flag) = Thrown (Uncaught e) /\
     upstream_attempts (trace (unauthenticated flag)) = []) /\
  (forall u h,
     buildUrl (provider ctx) (pathname url) (search url) = Returned u ->
     prepareHeaders (provider ctx) (req_headers req) None None = Returned h ->
     upstream_attempts (trace (unauthenticated flag))
       = [(u, req_method req, h, req_has_body req)] /\
     (forall e,
        makeProxyRequest u (req_method req) h createBodyStream (req_has_body req)
          = Thrown e ->
        result (unauthenticated flag) =
          Thrown (ProviderError (UNAUTHENTICATED_FAILED ERROR_MESSAGES)
                    (provider_name (provider ctx)) 502 (error_detail e)) /\
        calls (trace (unauthenticated flag)) =
          [ BuildUrl (pathname url) (search url);
            PrepareHeaders (req_headers req) None None;
            MakeProxyRequest u (req_method req) h (req_has_body req);
            LogError e ]) /\
     (forall resp,
        makeProxyRequest u (req_method req) h createBodyStream (req_has_body req)
          = Returned resp ->
        account (bare_record resp) = None /\
        response (bare_record resp) = resp /\
        (exists rest,
           calls (trace (unauthenticated flag)) =
             BuildUrl (pathname url) (search url) ::
             PrepareHeaders (req_headers req) None None ::
             MakeProxyRequest u (req_method req) h (req_has_body req) ::
             ForwardToClient (bare_record resp) :: rest) /\
        (forall r,
           forwardToClient (bare_record resp) ctx = Returned (Returned r) ->
           result (unauthenticated flag) = Returned (Some r)) /\
        (forall e,
           forwardToClient (bare_record resp) ctx = Returned (Thrown e) ->
           result (unauthenticated flag) = Thrown (Uncaught e)) /\
        (forall e,
           forwardToClient (bare_record resp) ctx = Thrown e ->
           result (unauthenticated flag) =
             Thrown (ProviderError (UNAUTHENTICATED_FAILED ERROR_MESSAGES)
                       (provider_name (provider ctx)) 502 (error_detail e))))) /\
  ((exists message name status detail,
      result (unauthenticated flag)
        = Thrown (ProviderError message name status detail))
   <-> exists u h,
         buildUrl (provider ctx) (pathname url) (search url) = Returned u /\
         prepareHeaders (provider ctx) (req_headers req) None None = Returned h /\
         ((exists e,
             makeProxyRequest u (req_method req) h createBodyStream
               (req_has_body req) = Thrown e) \/
          (exists resp e,
             makeProxyRequest u (req_method req) h createBodyStream
               (req_has_body req) = Returned resp /\
             forwardToClient (bare_record resp) ctx = Thrown e))).
Proof.
  rewrite <- upstream_attempts_calls, proxyUnauthenticated_outcome,
    proxyUnauthenticated_all_calls.
  split; [|split; [|split]].
  - now intros e ->.
  - now intros u e -> ->.
  - intros u h -> ->. split; [|split].
    + destruct (makeProxyRequest _ _ _ _ _); [|reflexivity].
      now destruct (forwardToClient _ _).
    + now intros e ->.
    + intros resp ->. do 2 (split; [reflexivity|]). split; [|split; [|split]].
      * eexists. reflexivity.
      * now intros r ->.
      * now intros e ->.
      * now intros e ->.
  - split.
    + intros (message & name & status & detail & Hthrown). revert Hthrown.
      destruct (buildUrl _ _ _) as [u|]; [|discriminate].
      destruct (prepareHeaders _ _ _ _) as [h|]; [|discriminate].
      intros Hthrown. exists u, h. do 2 (split; [reflexivity|]).
      destruct (makeProxyRequest _ _ _ _ _) as [resp|e]; [|left; eauto].
      destruct (forwardToClient _ _) as [[|]|e] eqn:Hfwd; try discriminate.
      right. eauto.
    + intros (u & h & -> & -> & [(e & ->)|(resp & e & -> & ->)]);
        do 4 eexists; reflexivity.
Qed.

End ProxyEdges.

(** C2 on an upstream that answers 401 and on one that cannot be
    reached. *)
Lemma proxyUnauthenticated_outcomes_witness :
  (Proxy.upstream_attempts
     (trace (Proxy.proxyUnauthenticated Double.messages None
               (Double.upstream_answering Double.unauthorized)
               Double.forward_as_is Double.cli_request Double.messages_url
               Double.meta None Double.no_body Double.ctx))
     = [("https://api.anthropic.com/v1/messages", "POST",
         [("x-app", "cli"); ("content-type", "application/json")], true)] /\
   result (Proxy.proxyUnauthenticated Double.messages None
             (Double.upstream_answering Double.unauthorized)
             Double.forward_as_is Double.cli_request Double.messages_url
             Double.meta None Double.no_body Double.ctx)
     = Returned (Some Double.unauthorized)) /\
  result (Proxy.proxyUnauthenticated Double.messages None
            Double.upstream_unreachable
            Double.forward_as_is Double.cli_request Double.messages_url
            Double.meta None Double.no_body Double.ctx)
    = Thrown (Proxy.ProviderError "Failed to forward unauthenticated request"
                "anthropic" 502 "ECONNREFUSED").
Proof.
  split.
  - destruct (proxyUnauthenticated_outcomes Double.messages
                (Double.upstream_answering Double.unauthorized)
                Double.forward_as_is Double.cli_request Double.messages_url
                Double.meta None Double.no_body Double.ctx None)
      as (_ & _ & Hsent & _).
    destruct (Hsent _ _ eq_refl eq_refl) as (Hone & _ & Hforwarded).
    split; [exact Hone|].
    destruct (Hforwarded Double.unauthorized eq_refl)
      as (_ & _ & _ & Hresult & _).
    exact (Hresult Double.unauthorized eq_refl).
  - destruct (proxyUnauthenticated_outcomes Double.messages
                Double.upstream_unreachable
                Double.forward_as_is Double.cli_request Double.messages_url
                Double.meta None Double.no_body Double.ctx None)
      as (_ & _ & Hsent & _).
    destruct (Hsent _ _ eq_refl eq_refl) as (_ & Hthrown & _).
    exact (proj1 (Hthrown (ErrorInstance "ECONNREFUSED") eq_refl)).
Defined.

(** The claim C2 as stated fails: with a provider whose header
    construction throws, the fallback does not make exactly one upstream
    attempt; it makes none. *)
Lemma proxyUnauthenticated_may_send_nothing :
  ~ (exists attempt,
       Proxy.upstream_attempts
         (trace (Proxy.proxyUnauthenticated Double.messages None
                   (Double.upstream_answering Double.unauthorized)
                   Double.forward_as_is Double.cli_request Double.messages_url
                   Double.meta None Double.no_body Double.ctx_without_headers))
       = [attempt]).
Proof.
  intros (attempt & Hone). vm_compute in Hone. discriminate Hone.
Qed.

(** X1 on a session created with an empty state. *)
Lemma createSession_getSession_roundtrip_witness :
  exists table',
    Sessions.createSession ∅ "s1" "alice" "verifier" OAuth.mode_max 1 None
      (Some "") 1000 = Returned table' /\
    Sessions.getSession table' "s1" 2000
      = Some {| Sessions.accountName := "alice";
                Sessions.verifier := "verifier";
                Sessions.state := None;
                Sessions.mode := OAuth.mode_max;
                Sessions.tier := 1 |}.
Proof.
  eexists. split; [reflexivity|].
  refine (createSession_getSession_roundtrip ∅ _ "s1" "alice" "verifier"
            OAuth.mode_max 1 None (Some "") 1000 2000 _ _); reflexivity.
Defined.

(** X2 on a second session created beside a stored one. *)
Lemma createSession_keeps_other_sessions_witness :
  exists table',
    Sessions.createSession Double.one_session "s2" "bob" "v2" OAuth.mode_console
      2 (Some 5) None 3000 = Returned table' /\
    Sessions.getSession table' "s1" 4000
      = Sessions.getSession Double.one_session "s1" 4000.
Proof.
  eexists. split; [reflexivity|].
  refine (createSession_keeps_other_sessions Double.one_session _ "s2" "s1"
            "bob" "v2" OAuth.mode_console 2 (Some 5) None 3000 4000 _ _);
    [reflexivity|discriminate].
Defined.

(** X5 on a sweep after the stored session expired. *)
Lemma cleanupExpiredSessions_invisible_witness :
  Sessions.getSession (Sessions.cleanupExpiredSessions Double.one_session 700000).1
    "s1" 700001
  = Sessions.getSession Double.one_session "s1" 700001.
Proof.
  assert (Hlater : 700000 <= 700001) by discriminate.
  exact (proj1 (cleanupExpiredSessions_invisible Double.one_session "s1"
                  700000 700001 Hlater)).
Defined.

(** X6 on the composite code of the specification's example. *)
Lemma split_code_roundtrip_witness :
  OAuth.split_code ("abc123" ++ "#" ++ "stateXYZ") = ("abc123", "stateXYZ").
Proof.
  exact (proj1 (split_code_roundtrip "abc123" "stateXYZ" "v" Double.config
                  eq_refl eq_refl)).
Defined.

(** X9 on the stub token endpoint. *)
Lemma exchangeCode_returns_only_on_success_witness :
  exists r payload,
    Double.fetch_answering Double.token_response
      (OAuth.tokenUrl Double.config)
      (OAuth.tokenRequest "abc123" "v" Double.config None) = Returned r /\
    200 <= OAuth.status r <= 299 /\
    OAuth.json r = Returned payload /\
    {| OAuth.refreshToken := "R"; OAuth.accessToken := "T";
       OAuth.expiresAt := 3600000 |}
    = {| OAuth.refreshToken := OAuth.refresh_token payload;
         OAuth.accessToken := OAuth.access_token payload;
         OAuth.expiresAt := 0 + OAuth.expires_in payload * 1000 |}.
Proof.
  exact (exchangeCode_returns_only_on_success
           (Double.fetch_answering Double.token_response) Double.parse_nothing
           "abc123" "v" Double.config None 0
           {| OAuth.refreshToken := "R"; OAuth.accessToken := "T";
              OAuth.expiresAt := 3600000 |} eq_refl).
Defined.

(** X11 on the console configuration. *)
Lemma generateAuthUrl_sets_each_parameter_once_witness :
  exists built state,
    OAuth.generateAuthUrl Double.url_without_query Double.url_text Double.config
      Double.pkce "123e4567-e89b-12d3-a456-426614174000"
      = Returned (Double.url_text built, state) /\
    OAuth.getAll "state" (OAuth.searchParams built) = [state] /\
    OAuth.getAll "scope" (OAuth.searchParams built)
      = ["org:create_api_key user:profile user:inference"] /\
    OAuth.getAll "code_challenge" (OAuth.searchParams built) = ["digest"].
Proof.
  destruct (generateAuthUrl_sets_each_parameter_once Double.url_without_query
              Double.url_text Double.config Double.pkce
              "123e4567-e89b-12d3-a456-426614174000" _ eq_refl)
    as (built & state & Hbuilt & _ & _ & _ & _ & _ & _ & Hscope & Hchallenge
        & _ & Hstate & _).
  exists built, state. repeat split; assumption.
Defined.

(** X18 on a token manager whose refresh fails. *)
Lemma proxyWithAccount_token_failure_witness :
  result (Proxy.proxyWithAccount None
            (Double.upstream_answering Double.unauthorized)
            Double.token_failing Double.rate_limited_on_429
            Double.forward_as_is Double.cli_request Double.messages_url
            Double.max_account Double.meta None Double.no_body 0 Double.ctx)
    = Returned None /\
  Proxy.upstream_attempts
    (trace (Proxy.proxyWithAccount None
              (Double.upstream_answering Double.unauthorized)
              Double.token_failing Double.rate_limited_on_429
              Double.forward_as_is Double.cli_request Double.messages_url
              Double.max_account Double.meta None Double.no_body 0 Double.ctx))
    = [].
Proof.
  destruct (proxyWithAccount_token_failure
              (Double.upstream_answering Double.unauthorized)
              Double.token_failing Double.rate_limited_on_429
              Double.forward_as_is Double.cli_request Double.messages_url
              Double.meta None Double.no_body Double.ctx None Double.max_account
              0 (ErrorInstance "refresh failed") eq_refl)
    as (Hresult & _ & Hnone).
  split; assumption.
Defined.

(** X19 on an OAuth-only account: the token is passed, no API key is. *)
Lemma proxyWithAccount_credentials_witness :
  exists token,
    Double.token_of_account Double.max_account Double.ctx = Returned token /\
    Some "access-1" = Some token.
Proof.
  refine (proj1 (proj2 (proxyWithAccount_credentials
            (Double.upstream_answering Double.unauthorized)
            Double.token_of_account Double.rate_limited_on_429
            Double.forward_as_is Double.cli_request Double.messages_url
            Double.meta None Double.no_body Double.ctx None Double.max_account 0
            (Proxy.req_headers Double.cli_request) (Some "access-1") None _))).
  vm_compute. repeat (first [left; reflexivity | right]).
Defined.

